(** * Association generation: DMS base rules and post-processing

    A shallow embedding of [jwst/associations/lib/dms_base.py] and of the
    utilities of [jwst/associations/main.py], followed by the properties
    the specification states about them.

    Python values that occur in pool items and members are strings or
    [None]; dictionaries are finite maps, a failed subscript raises
    [KeyError].  Strings are byte strings: the names and keyword values
    that occur in association pools are ASCII. *)

From Stdlib Require Import String Ascii List ZArith Lia Bool Sorted.
From stdpp Require Import base option list gmap strings pretty.

Local Open Scope string_scope.
Local Open Scope list_scope.

(** ** Python values, exceptions and results *)

Inductive pyval : Type :=
| PyNone
| PyStr (s : string).

#[global] Instance pyval_eq_dec : EqDecision pyval.
Proof. solve_decision. Defined.

(** The exceptions that the embedded functions raise or catch. *)
Inductive exn : Type :=
| KeyError
| LookupError
| AttributeError.

#[global] Instance exn_eq_dec : EqDecision exn.
Proof. solve_decision. Defined.

(** A call either returns a value or raises. *)
Inductive pyresult (A : Type) : Type :=
| Return (a : A)
| Raise (e : exn).

Arguments Return {A} a.
Arguments Raise {A} e.

(** Sequencing: an exception raised by the first call propagates. *)
Definition bind {A B : Type} (r : pyresult A) (k : A -> pyresult B) : pyresult B :=
  match r with
  | Return a => k a
  | Raise e => Raise e
  end.

Notation "'let!' x ':=' r 'in' k" := (bind r (fun x => k))
  (at level 10, x name, r at level 100, k at level 200).
Notation "'let!' ' p ':=' r 'in' k" := (bind r (fun p => k))
  (at level 10, p pattern, r at level 100, k at level 200).

(** [try: r except KeyError: h] *)
Definition except_KeyError {A : Type} (r : pyresult A) (h : pyresult A) : pyresult A :=
  match r with
  | Raise KeyError => h
  | _ => r
  end.

(** [adict[key]] on a dictionary. *)
Definition getitem {V : Type} (adict : gmap string V) (key : string) : pyresult V :=
  match adict !! key with
  | Some v => Return v
  | None => Raise KeyError
  end.

(** [x in seq] for a tuple or list of values. *)
Definition py_in (x : pyval) (seq : list pyval) : bool :=
  bool_decide (x ∈ seq).

(** ** Module constants of dms_base.py *)

Definition EXPTYPE_MAP : gmap string string :=
  list_to_map
    [ ("mir_darkall",       "dark");
      ("mir_darkimg",       "dark");
      ("mir_darkmrs",       "dark");
      ("mir_flatimage",     "flat");
      ("mir_flatmrs",       "flat");
      ("mir_flatimage-ext", "flat");
      ("mir_flatmrs-ext",   "flat");
      ("mir_tacq",          "target_acquisition");
      ("nis_dark",          "dark");
      ("nis_focus",         "engineering");
      ("nis_lamp",          "engineering");
      ("nis_tacq",          "target_acquisition");
      ("nis_taconfirm",     "target_acquisition");
      ("nrc_dark",          "dark");
      ("nrc_flat",          "flat");
      ("nrc_focus",         "engineering");
      ("nrc_led",           "engineering");
      ("nrc_tacq",          "target_acquisition");
      ("nrc_taconfirm",     "target_acquisition");
      ("nrs_autoflat",      "autoflat");
      ("nrs_autowave",      "autowave");
      ("nrs_confirm",       "target_acquisition");
      ("nrs_dark",          "dark");
      ("nrs_focus",         "engineering");
      ("nrs_image",         "engineering");
      ("nrs_lamp",          "engineering");
      ("nrs_msata",         "target_acquisition");
      ("nrs_tacq",          "target_acquisition");
      ("nrs_taconfirm",     "target_acquisition");
      ("nrs_taslit",        "target_acquisition");
      ("nrs_wata",          "target_acquisition") ].

(** An ordered dictionary: iteration follows insertion order. *)
Definition SPECIAL_EXPTYPES : list (string * list string) :=
  [ ("psf",        ["is_psf"]);
    ("imprint",    ["is_imprt"]);
    ("background", ["bkgdtarg"]) ].

Definition TSO_EXP_TYPES : list string :=
  [ "nrc_tsimage"; "nrc_tsgrism"; "nrs_brightobj" ].

Definition _EMPTY : list pyval :=
  [ PyNone; PyStr ""; PyStr "NULL"; PyStr "Null"; PyStr "null"; PyStr "--";
    PyStr "N"; PyStr "n"; PyStr "F"; PyStr "f"; PyStr "N/A"; PyStr "n/a" ].

Definition _DEGRADED_STATUS_OK : string :=
  "No known degraded exposures in association.".

Definition newline : string := String (ascii_of_nat 10) EmptyString.

Definition _DEGRADED_STATUS_NOTOK : string :=
  "One or more members have an error associated with them."
  +:+ newline
  +:+ "Details can be found in the member.exposerr attribute.".

(** ** Data model *)

(** A pool item, and a member of a product: dictionaries from attribute
    name to value. *)
Abbreviation Item := (gmap string pyval).
Abbreviation Member := (gmap string pyval).

(** A constraint as the mixin reads it: [value] is [None] for a
    constraint object that has no attribute of that name (the lookup then
    raises [AttributeError]); [found_values] lists the values recorded by
    the matches, in the order in which [list(...)] enumerates them. *)
Record Constraint : Type := {
  value : option pyval;
  found_values : list string
}.

(** A product dictionary [{'name': ..., 'members': [...]}]; [None] for a
    key that is not there. *)
Record Product : Type := {
  name : string;
  members : option (list Member)
}.

(** The state of an association that the mixin reads and writes:
    [self.data['degraded_status']], [self.data['products']] ([None] when
    the key is absent), [self.constraints], the class attribute
    [INVALID_VALUES], [self.sequence], the name of the rule class and
    [self.registry.name]. *)
Record Association : Type := {
  rule : string;
  registry_name : string;
  INVALID_VALUES : list pyval;
  constraints : gmap string Constraint;
  degraded_status : string;
  products : option (list Product);
  sequence : option Z
}.

Definition set_degraded_status (self : Association) (status : string) : Association :=
  {| rule := rule self;
     registry_name := registry_name self;
     INVALID_VALUES := INVALID_VALUES self;
     constraints := constraints self;
     degraded_status := status;
     products := products self;
     sequence := sequence self |}.

Definition set_sequence (self : Association) (n : Z) : Association :=
  {| rule := rule self;
     registry_name := registry_name self;
     INVALID_VALUES := INVALID_VALUES self;
     constraints := constraints self;
     degraded_status := degraded_status self;
     products := products self;
     sequence := Some n |}.

(** ** Attribute resolver *)

(** Modelled from the spec: [getattr_from_list] of
    [jwst/associations/lib/utilities.py] is not among the sources.  The
    attribute resolver tries the attribute names in order and treats the
    configured sentinel values as absent; it raises [KeyError] when no
    name yields a value. *)
Fixpoint getattr_from_list (adict : gmap string pyval) (attributes : list string)
    (invalid_values : list pyval) : pyresult (string * pyval) :=
  match attributes with
  | [] => Raise KeyError
  | attribute :: rest =>
      match adict !! attribute with
      | None => getattr_from_list adict rest invalid_values
      | Some v =>
          if py_in v invalid_values
          then getattr_from_list adict rest invalid_values
          else Return (attribute, v)
      end
  end.

Definition item_getattr (self : Association) (item : Item) (attributes : list string)
    : pyresult (string * pyval) :=
  getattr_from_list item attributes (INVALID_VALUES self).

(** ** is_item_tso *)

(** [self.constraints['is_tso'].value == 't'], with [KeyError] for a
    missing constraint and [AttributeError] for a missing attribute. *)
Definition is_tso_constraint_value (self : Association) : pyresult bool :=
  let! c := getitem (constraints self) "is_tso" in
  match value c with
  | None => Raise AttributeError
  | Some v => Return (bool_decide (v = PyStr "t"))
  end.

Definition is_item_tso (self : Association) (item : Item)
    (other_exp_types : option (list string)) : pyresult bool :=
  let! pntgtype := getitem item "pntgtype" in
  if negb (bool_decide (pntgtype = PyStr "science")) then Return false
  else
    let all_exp_types :=
      match other_exp_types with
      | Some (t :: ts) => TSO_EXP_TYPES ++ (t :: ts)
      | _ => TSO_EXP_TYPES
      end in
    let! is_tso :=
      match is_tso_constraint_value self with
      | Raise AttributeError | Raise KeyError => Return false
      | r => r
      end in
    let! is_tso :=
      except_KeyError
        (if is_tso then Return true
         else let! '(_, v) := item_getattr self item ["tsovisit"] in
              Return (bool_decide (v = PyStr "t")))
        (Return is_tso) in
    let! is_tso :=
      except_KeyError
        (if is_tso then Return true
         else let! '(_, v) := item_getattr self item ["exp_type"] in
              Return (py_in v (PyStr <$> all_exp_types)))
        (Return is_tso) in
    Return is_tso.

(** ** get_exposure_type *)

(** [EXPTYPE_MAP.get(exp_type, default)]: a value that is not a key of
    the table, [None] included, yields the default. *)
Definition exptype_get (exp_type : pyval) (default : option string) : option string :=
  match exp_type with
  | PyStr s =>
      match EXPTYPE_MAP !! s with
      | Some t => Some t
      | None => default
      end
  | PyNone => default
  end.

(** The loop over [SPECIAL_EXPTYPES.items()]: the first entry whose
    source resolves sets the result and breaks. *)
Fixpoint special_loop (self : Association) (item : Item)
    (specials : list (string * list string)) (result : string) : pyresult string :=
  match specials with
  | [] => Return result
  | (special, source) :: rest =>
      match item_getattr self item source with
      | Raise KeyError => special_loop self item rest result
      | Raise e => Raise e
      | Return _ => Return special
      end
  end.

Definition get_exposure_type (self : Association) (item : Item)
    (default : option string) : pyresult string :=
  match item !! "exp_type" with
  | None => Raise LookupError
  | Some exp_type =>
      match exptype_get exp_type default with
      | None => Raise LookupError
      | Some result =>
          if String.eqb result "science"
          then special_loop self item SPECIAL_EXPTYPES result
          else Return result
      end
  end.

(** ** update_degraded_status *)

(** The inner loop over [product['members']]; [break] leaves it. *)
Fixpoint members_loop (members : list Member) (status : string) : string :=
  match members with
  | [] => status
  | member :: rest =>
      match member !! "exposerr" with
      | None => members_loop rest status
      | Some exposerr =>
          if negb (py_in exposerr _EMPTY)
          then _DEGRADED_STATUS_NOTOK
          else members_loop rest status
      end
  end.

(** The outer loop over [self.data['products']].  It is not left by the
    inner [break]; a product without the key ['members'] raises
    [KeyError] with the status as it is by then. *)
Fixpoint products_loop (products : list Product) (status : string)
    : string * option exn :=
  match products with
  | [] => (status, None)
  | product :: rest =>
      match members product with
      | None => (status, Some KeyError)
      | Some ms => products_loop rest (members_loop ms status)
      end
  end.

(** The association after the call, and the exception raised if any. *)
Definition update_degraded_status (self : Association) : Association * option exn :=
  if String.eqb (degraded_status self) _DEGRADED_STATUS_OK then
    match products self with
    | None => (self, Some KeyError)
    | Some ps =>
        let '(status, e) := products_loop ps (degraded_status self) in
        (set_degraded_status self status, e)
    end
  else (self, None).

(** ** format_list and _get_opt_element *)

(** [str.lower] on ASCII text. *)
Definition lower_ascii (c : ascii) : ascii :=
  let n := nat_of_ascii c in
  if (65 <=? n)%nat && (n <=? 90)%nat then ascii_of_nat (n + 32) else c.

Fixpoint lower (s : string) : string :=
  match s with
  | EmptyString => EmptyString
  | String c rest => String (lower_ascii c) (lower rest)
  end.

(** [alist.sort(key=str.lower)]: the sort is stable, so an element goes
    in front of the elements of equal key that followed it. *)
Fixpoint insert_lower (x : string) (sorted : list string) : list string :=
  match sorted with
  | [] => [x]
  | y :: ys =>
      if String.leb (lower x) (lower y)
      then x :: y :: ys
      else y :: insert_lower x ys
  end.

Definition sort_lower (alist : list string) : list string :=
  foldr insert_lower [] alist.

Definition format_list (alist : list string) : string :=
  String.concat "-" alist.

(** The loop over the three constraint names; a constraint that is not
    there raises [KeyError], which is passed over. *)
Fixpoint opt_elems_loop (self : Association) (names : list string)
    (opt_elems : list string) : list string :=
  match names with
  | [] => opt_elems
  | opt_elem :: rest =>
      match getitem (constraints self) opt_elem with
      | Raise _ => opt_elems_loop self rest opt_elems
      | Return c =>
          let values := sort_lower (found_values c) in
          let value := format_list values in
          if negb (py_in (PyStr value) _EMPTY)
          then opt_elems_loop self rest (opt_elems ++ [value])
          else opt_elems_loop self rest opt_elems
      end
  end.

Definition _get_opt_element (self : Association) : string :=
  let opt_elems := opt_elems_loop self ["opt_elem"; "opt_elem2"; "opt_elem3"] [] in
  let opt_elems := sort_lower opt_elems in
  let opt_elem := String.concat "-" opt_elems in
  if String.eqb opt_elem "" then "clear" else opt_elem.

(** The fragment as the specification words it: per existing constraint
    the found values sorted and joined, the non-sentinel results
    collected, sorted and joined, ["clear"] for an empty result. *)
Definition opt_element_spec (self : Association) : string :=
  let joined_per_constraint :=
    omap (fun n => (fun c => format_list (sort_lower (found_values c)))
                     <$> constraints self !! n)
         ["opt_elem"; "opt_elem2"; "opt_elem3"] in
  let kept :=
    List.filter (fun v => negb (py_in (PyStr v) _EMPTY)) joined_per_constraint in
  let fragment := format_list (sort_lower kept) in
  if decide (fragment = "") then "clear" else fragment.

(** ** constrain_on_candidates *)

(** The dictionary that [constrain_on_candidates] returns, one field per
    key. *)
Record candidate_constraint : Type := {
  cc_value : pyval;
  cc_inputs : list string;
  cc_force_unique : bool;
  cc_is_acid : bool;
  cc_evaluate : bool
}.

Definition constrain_on_candidates (candidates : option (list string))
    : candidate_constraint :=
  let values :=
    match candidates with
    | Some (c :: cs) =>
        let c_list := String.concat "|" (c :: cs) in
        PyStr (String.concat "" [".+("; c_list; ").+"])
    | _ => PyNone
    end in
  {| cc_value := values;
     cc_inputs := ["asn_candidate"];
     cc_force_unique := true;
     cc_is_acid := true;
     cc_evaluate := true |}.

(** ** filter_discovered_only *)

Section FilterDiscovered.

(** The equality contract of associations ([__eq__]) belongs to the
    [Association] base class, which is not among the sources; it is a
    parameter here.  [discover != candidate] is its negation. *)
Variable asn_eq : Association -> Association -> bool.

(** [for asn in associations: asn_by_ruleset[asn.registry.name].append(asn)] *)
Fixpoint partition_loop (associations : list Association)
    (asn_by_ruleset : gmap string (list Association))
    : pyresult (gmap string (list Association)) :=
  match associations with
  | [] => Return asn_by_ruleset
  | asn :: rest =>
      let! bucket := getitem asn_by_ruleset (registry_name asn) in
      partition_loop rest (<[registry_name asn := bucket ++ [asn]]> asn_by_ruleset)
  end.

(** The inner loop that builds [unique_list]. *)
Fixpoint unique_loop (candidate : Association) (discover_list unique_list : list Association)
    : list Association :=
  match discover_list with
  | [] => unique_list
  | discover :: rest =>
      if negb (asn_eq discover candidate)
      then unique_loop candidate rest (unique_list ++ [discover])
      else unique_loop candidate rest unique_list
  end.

(** The loop over the candidates, left as soon as no discovered
    association remains. *)
Fixpoint candidates_loop (candidate_list discover_list : list Association)
    : list Association :=
  match candidate_list with
  | [] => discover_list
  | candidate :: rest =>
      if (length discover_list =? 0)%nat then discover_list
      else candidates_loop rest (unique_loop candidate discover_list [])
  end.

(** The dictionary literal has one bucket when both names are the same
    string.  The two lists are then one object, but the loop rebinds
    [discover_list] to a fresh list unless that object is empty, so the
    final [extend] never adds a non-empty list to itself. *)
Definition filter_discovered_only (associations : list Association)
    (discover_ruleset candidate_ruleset : string) (keep_candidates : bool)
    : pyresult (list Association) :=
  let asn_by_ruleset : gmap string (list Association) :=
    <[discover_ruleset := []]> (<[candidate_ruleset := []]> ∅) in
  let! asn_by_ruleset := partition_loop associations asn_by_ruleset in
  let! candidate_list := getitem asn_by_ruleset candidate_ruleset in
  let! discover_list := getitem asn_by_ruleset discover_ruleset in
  let discover_list := candidates_loop candidate_list discover_list in
  Return (if keep_candidates then discover_list ++ candidate_list else discover_list).

(** The two sides of the partition, and the discovered associations that
    no candidate equals. *)
Definition of_ruleset (ruleset : string) (associations : list Association)
    : list Association :=
  List.filter (fun asn => bool_decide (registry_name asn = ruleset)) associations.

Definition equals_no_candidate (candidate_list : list Association)
    (discover : Association) : bool :=
  forallb (fun candidate => negb (asn_eq discover candidate)) candidate_list.

End FilterDiscovered.

(** ** Sequence numbers: create and reset_sequence *)

(** [Counter] of [jwst/associations/lib/counter.py] is not among the
    sources: the counter is a parameter, with the two operations that the
    mixin uses.  [Counter_start n] is [Counter(start=n)]; [next counter]
    is the number that [next(counter)] hands out and the counter
    afterwards. *)
Class CounterOps (Counter : Type) : Type := {
  Counter_start : Z -> Counter;
  next : Counter -> Z * Counter
}.

(** The number that the next call of [next] hands out. *)
Definition upcoming {Counter : Type} `{!CounterOps Counter} (counter : Counter) : Z :=
  (next counter).1.

(** Modelled from the spec: sequence numbers are monotonically assigned.
    Each call of [next] on a counter hands out a larger number than the
    call before. *)
Definition monotonically_assigned (Counter : Type) `{!CounterOps Counter} : Prop :=
  forall counter : Counter, (upcoming counter < upcoming (next counter).2)%Z.

(** The attribute [_sequence] is a class attribute: the state maps the
    name of a class to the counter bound in that class's own dictionary,
    if there is one.  A counter object is bound by the class body of
    [DMSBaseMixin] or by [reset_sequence], each time a fresh object, so no
    two classes hold the same object in their dictionaries; classes share
    a counter by inheriting the attribute. *)
Definition DMSBaseMixin : string := "DMSBaseMixin".

(** Attribute lookup along the method resolution order of a class: the
    first class whose dictionary binds [_sequence], with the counter. *)
Fixpoint getattr_sequence {Counter : Type} (classes : gmap string Counter)
    (mro : list string) : option (string * Counter) :=
  match mro with
  | [] => None
  | cls :: bases =>
      match classes !! cls with
      | Some counter => Some (cls, counter)
      | None => getattr_sequence classes bases
      end
  end.

(** A history of calls on rule classes. *)
Inductive call : Type :=
| Create (cls : string) (item : Item) (version_id : option string)
| ResetSequence (cls : string).

Definition is_create (c : call) : bool :=
  match c with
  | Create _ _ _ => true
  | ResetSequence _ => false
  end.

Section Sequence.

Context {Counter : Type} `{!CounterOps Counter}.

(** The state after the class body [_sequence = Counter(start=1)]. *)
Definition classes_at_import : gmap string Counter :=
  {[ DMSBaseMixin := Counter_start 1 ]}.

(** [cls._sequence = Counter(start=1)] binds in the dictionary of [cls]
    itself. *)
Definition reset_sequence (cls : string) (classes : gmap string Counter)
    : gmap string Counter :=
  <[cls := Counter_start 1]> classes.

(** The entries of a reprocess list are not inspected. *)
Variable ProcessList : Type.

(** The method resolution order of each class, the class itself first. *)
Variable mro : string -> list string.

(** [super(DMSBaseMixin, cls).create(item, version_id)], defined by the
    [Association] base class, which is not among the sources. *)
Variable super_create :
  string -> Item -> option string -> option Association * list ProcessList.

(** [asn._sequence] is looked up on the class of [asn]; [next] changes the
    counter object in place, wherever it is bound. *)
Definition create (cls : string) (item : Item) (version_id : option string)
    (classes : gmap string Counter)
    : pyresult ((option Association * list ProcessList) * gmap string Counter) :=
  let '(asn, reprocess) := super_create cls item version_id in
  match asn with
  | None => Return ((None, reprocess), classes)
  | Some asn =>
      match getattr_sequence classes (mro (rule asn)) with
      | None => Raise AttributeError
      | Some (owner, counter) =>
          let '(n, counter) := next counter in
          Return ((Some (set_sequence asn n), reprocess), <[owner := counter]> classes)
      end
  end.

(** The associations that a history of calls creates, in the order of
    their creation. *)
Fixpoint run (calls : list call) (classes : gmap string Counter)
    : pyresult (list Association * gmap string Counter) :=
  match calls with
  | [] => Return ([], classes)
  | Create cls item version_id :: rest =>
      let! '((asn, _), classes) := create cls item version_id classes in
      let! '(created, classes) := run rest classes in
      Return (match asn with Some a => a :: created | None => created end, classes)
  | ResetSequence cls :: rest => run rest (reset_sequence cls classes)
  end.

(** The class that holds the counter a class uses. *)
Definition counter_owner (classes : gmap string Counter) (cls : string) : option string :=
  fst <$> getattr_sequence classes (mro cls).

End Sequence.

(** ** Concrete associations, items and class hierarchies *)

Definition make_association (cls ruleset : string)
    (cs : gmap string Constraint) (status : string)
    (ps : option (list Product)) : Association :=
  {| rule := cls;
     registry_name := ruleset;
     INVALID_VALUES := _EMPTY;
     constraints := cs;
     degraded_status := status;
     products := ps;
     sequence := None |}.

(** An association whose [is_tso] constraint matched ["t"]. *)
Definition tso_association : Association :=
  make_association "Asn_TSO" "candidate"
    {[ "is_tso" := {| value := Some (PyStr "t"); found_values := ["t"] |} ]}
    _DEGRADED_STATUS_OK (Some []).

(** A target acquisition taken during a time-series visit. *)
Definition acquisition_item : Item :=
  {[ "pntgtype" := PyStr "target_acquisition";
     "tsovisit" := PyStr "t";
     "exp_type" := PyStr "nrc_tsimage" ]}.

(** The same exposure without a pointing type. *)
Definition item_without_pntgtype : Item :=
  {[ "tsovisit" := PyStr "t";
     "exp_type" := PyStr "nrc_tsimage" ]}.

(** A science pointing with no other attribute. *)
Definition bare_science_item : Item :=
  {[ "pntgtype" := PyStr "science" ]}.

(** An exposure that is not flagged as PSF (the value is a sentinel) but
    is an imprint and a background target. *)
Definition imprint_item : Item :=
  {[ "exp_type" := PyStr "mir_mrs";
     "is_psf" := PyStr "N";
     "is_imprt" := PyStr "t";
     "bkgdtarg" := PyStr "t" ]}.

Definition item_without_exp_type : Item :=
  {[ "pntgtype" := PyStr "science" ]}.

(** A gating source resolves on the item. *)
Definition resolves (self : Association) (item : Item) (source : list string) : Prop :=
  exists av, item_getattr self item source = Return av.

(** The member reports an exposure error: [exposerr] is present and is
    not a sentinel. *)
Definition has_exposerr (member : Member) : Prop :=
  exists v, member !! "exposerr" = Some v /\ v ∉ _EMPTY.

(** The members of all products of an association. *)
Definition all_members (self : Association) : list Member :=
  match products self with
  | Some ps => concat (map (fun product => default [] (members product)) ps)
  | None => []
  end.

(** The association has its products, and each product its members. *)
Definition has_products (self : Association) : Prop :=
  exists ps, products self = Some ps
             /\ Forall (fun product => is_Some (members product)) ps.

(** Two products; the second member of the second one has an error. *)
Definition degraded_products : list Product :=
  [ {| name := "jw00001-o001_t001_miri_f770w";
       members := Some [ {[ "expname" := PyStr "jw00001001001_01101_00001_mirimage" ]} ] |};
    {| name := "jw00001-o001_t001_miri_f560w";
       members := Some [ {[ "expname" := PyStr "jw00001001001_01101_00002_mirimage";
                            "exposerr" := PyStr "null" ]};
                         {[ "expname" := PyStr "jw00001001001_01101_00003_mirimage";
                            "exposerr" := PyStr "guide star lost" ]} ] |} ].

(** One product whose only member has a sentinel [exposerr]. *)
Definition clean_products : list Product :=
  [ {| name := "jw00001-o001_t001_miri_f770w";
       members := Some [ {[ "expname" := PyStr "jw00001001001_01101_00001_mirimage";
                            "exposerr" := PyStr "N/A" ]} ] |} ].

(** The test of the inner loop, as a boolean. *)
Definition exposerr_set (member : Member) : bool :=
  match member !! "exposerr" with
  | Some exposerr => negb (py_in exposerr _EMPTY)
  | None => false
  end.

(** An association that matched two filters on its [opt_elem]
    constraint. *)
Definition two_filter_association : Association :=
  make_association "Asn_Image" "candidate"
    {[ "opt_elem" := {| value := None; found_values := ["F770W"; "f560w"] |} ]}
    _DEGRADED_STATUS_OK (Some []).

(** An association with a filter and a pupil, and an [opt_elem3] that
    only found a sentinel. *)
Definition filter_pupil_association : Association :=
  make_association "Asn_Image" "candidate"
    {[ "opt_elem" := {| value := None; found_values := ["F444W"; "f150w2"] |};
       "opt_elem2" := {| value := None; found_values := ["CLEAR"] |};
       "opt_elem3" := {| value := None; found_values := ["N/A"] |} ]}
    _DEGRADED_STATUS_OK (Some []).

(** The association comes from one of the two named rulesets. *)
Definition from_ruleset (discover_ruleset candidate_ruleset : string)
    (asn : Association) : Prop :=
  registry_name asn = discover_ruleset \/ registry_name asn = candidate_ruleset.

Definition from_rulesets (discover_ruleset candidate_ruleset : string)
    (associations : list Association) : Prop :=
  Forall (from_ruleset discover_ruleset candidate_ruleset) associations.

(** Modelled from the spec: the equality of associations is defined by
    the [Association] base class, which is not among the sources.  Two
    associations are structurally equal when they have the same members,
    whatever ruleset made them. *)
Definition same_members (a b : Association) : bool :=
  bool_decide (omap (fun m : Member => m !! "expname") (all_members a)
               = omap (fun m : Member => m !! "expname") (all_members b)).

Definition association_of (cls ruleset : string) (expnames : list string)
    : Association :=
  make_association cls ruleset ∅ _DEGRADED_STATUS_OK
    (Some [ {| name := "undefined";
               members := Some ((fun e => {[ "expname" := PyStr e ]}) <$> expnames) |} ]).

(** The result of a run over three exposures: the discover rules find the
    grouping of candidate [o001] again, and one across candidates. *)
Definition generated_associations : list Association :=
  [ association_of "discover_Asn_Image" "discover" ["exp1"; "exp2"];
    association_of "candidate_Asn_Image" "candidate" ["exp1"; "exp2"];
    association_of "discover_Asn_Image" "discover" ["exp1"; "exp2"; "exp3"];
    association_of "candidate_Asn_Image" "candidate" ["exp3"] ].

(** The same with an association of a third ruleset in between. *)
Definition associations_with_stranger : list Association :=
  [ association_of "discover_Asn_Image" "discover" ["exp1"; "exp2"];
    association_of "user_Asn_Image" "user" ["exp1"];
    association_of "candidate_Asn_Image" "candidate" ["exp3"] ].

(** The buckets of the partition after the associations [seen] have been
    appended: one per ruleset name, none for any other name. *)
Definition buckets (discover_ruleset candidate_ruleset : string)
    (seen : list Association) (m : gmap string (list Association)) : Prop :=
  forall k,
    m !! k = if bool_decide (k = discover_ruleset \/ k = candidate_ruleset)
             then Some (of_ruleset k seen) else None.

(** The associations that a history of calls creates from the state at
    import; none if a call raises. *)
Definition created_by {Counter : Type} `{!CounterOps Counter} {ProcessList : Type}
    (mro : string -> list string)
    (super_create : string -> Item -> option string
                    -> option Association * list ProcessList)
    (calls : list call) : list Association :=
  match run ProcessList mro super_create calls (classes_at_import (Counter:=Counter)) with
  | Return (created, _) => created
  | Raise _ => []
  end.

(** The first sequence number given to an association of a rule class. *)
Definition first_sequence (cls : string) (created : list Association) : option Z :=
  head (omap sequence
          (List.filter (fun asn => bool_decide (rule asn = cls)) created)).

(** The numbers of every rule class start at 1. *)
Definition starts_at_one (created : list Association) : Prop :=
  forall asn, asn ∈ created -> first_sequence (rule asn) created = Some 1%Z.

(** The numbers of every rule class increase in the order of creation. *)
Definition increases_per_class (created : list Association) : Prop :=
  forall i j a b na nb,
    (i < j)%nat -> created !! i = Some a -> created !! j = Some b ->
    rule a = rule b ->
    sequence a = Some na -> sequence b = Some nb -> (na < nb)%Z.

(** Rule classes that derive from the mixin through one base class. *)
Definition level3_mro (cls : string) : list string :=
  [cls; "DMS_Level3_Base"; DMSBaseMixin].

(** A base [create] that accepts the items that have a program. *)
Definition create_with_program (cls : string) (item : Item)
    (version_id : option string) : option Association * list unit :=
  match item !! "program" with
  | Some _ =>
      (Some (make_association cls "candidate" ∅ _DEGRADED_STATUS_OK None), [])
  | None => (None, [])
  end.

Definition program_item : Item := {[ "program" := PyStr "00001" ]}.

(** An image rule and a spectral rule create one association each. *)
Definition two_rule_history : list call :=
  [ Create "Asn_Image" program_item None;
    Create "Asn_Spectrum" program_item None ].

(** An image rule creates two associations. *)
Definition one_rule_history : list call :=
  [ Create "Asn_Image" program_item None;
    Create "Asn_Image" program_item None ].

(** Between resets the numbers of every rule class start at 1 and
    increase, for rule classes that derive from the mixin through one
    base class and with the given counter. *)
Definition numbers_start_at_one (Counter : Type) `{!CounterOps Counter} : Prop :=
  forall calls,
    forallb is_create calls = true ->
    starts_at_one
      (created_by (Counter:=Counter) level3_mro create_with_program calls)
    /\ increases_per_class
         (created_by (Counter:=Counter) level3_mro create_with_program calls).

(** Modelled from the spec: a counter for the examples.  It keeps an
    integer and hands out the integer after it on each call, so that its
    numbers are monotonically assigned. *)
#[global] Instance stepping_counter : CounterOps Z :=
  {| Counter_start := fun start => start;
     next := fun value => ((value + 1)%Z, (value + 1)%Z) |}.

(** The order on the keys of the sort. *)
Definition lower_le (x y : string) : Prop := String.le (lower x) (lower y).

(** ** Further constants and the readings used by the properties below *)

Definition ACQ_EXP_TYPES : list string :=
  [ "mir_tacq"; "nis_taconfirm"; "nis_tacq"; "nrc_taconfirm"; "nrc_tacq";
    "nrs_confirm"; "nrs_msata"; "nrs_taconfirm"; "nrs_tacq"; "nrs_taslit";
    "nrs_wata" ].

(** The association exposure types that [get_exposure_type] can return
    with the default ["science"]. *)
Definition association_exptypes : list string :=
  [ "science"; "dark"; "flat"; "target_acquisition"; "engineering";
    "autoflat"; "autowave"; "psf"; "imprint"; "background" ].

(** The [is_tso] constraint of the association has the value ["t"]. *)
Definition constraint_is_tso (self : Association) : Prop :=
  exists c, constraints self !! "is_tso" = Some c /\ value c = Some (PyStr "t").

(** The attribute resolves on the item to the value [v]. *)
Definition resolves_to (self : Association) (item : Item) (attribute : string)
    (v : pyval) : Prop :=
  exists a, item_getattr self item [attribute] = Return (a, v).

(** The exposure types that count as time series for a call. *)
Definition tso_exp_types (other_exp_types : option (list string)) : list string :=
  TSO_EXP_TYPES ++ default [] other_exp_types.

(** A coronagraphic science exposure outside a time-series visit. *)
Definition coronagraphic_item : Item :=
  {[ "pntgtype" := PyStr "science";
     "tsovisit" := PyStr "f";
     "exp_type" := PyStr "mir_lyot" ]}.

(** The found values of a constraint name are the same up to their order
    in two associations, and no two of them differ by letter case only. *)
Definition same_found_values (self1 self2 : Association) (n : string) : Prop :=
  match constraints self1 !! n, constraints self2 !! n with
  | Some c1, Some c2 =>
      found_values c1 ≡ₚ found_values c2
      /\ NoDup (lower <$> found_values c1)
  | None, None => True
  | _, _ => False
  end.

(** The association that [create] returns, if it returns. *)
Definition created {Counter ProcessList : Type}
    (r : pyresult ((option Association * list ProcessList) * gmap string Counter))
    : pyresult (option Association * list ProcessList) :=
  let! '(made, _) := r in Return made.

(** The filters of [two_filter_association] found in the other order. *)
Definition two_filter_association_reordered : Association :=
  make_association "Asn_Image" "candidate"
    {[ "opt_elem" := {| value := None; found_values := ["f560w"; "F770W"] |} ]}
    _DEGRADED_STATUS_OK (Some []).

(** ** Products and members *)

(** The exceptions of the functions below: the three above and those
    that only these functions raise. *)
Inductive error : Type :=
| Builtin (e : exn)
| IndexError
| TypeError
| AssociationNotValidError (message : string).

Inductive outcome (A : Type) : Type :=
| Returns (a : A)
| Raises (e : error).

Arguments Returns {A} a.
Arguments Raises {A} e.

Definition PRODUCT_NAME_DEFAULT : string := "undefined".

Definition set_products (self : Association) (ps : list Product) : Association :=
  {| rule := rule self;
     registry_name := registry_name self;
     INVALID_VALUES := INVALID_VALUES self;
     constraints := constraints self;
     degraded_status := degraded_status self;
     products := Some ps;
     sequence := sequence self |}.

(** [self.data['products'][-1]]: [KeyError] without the key, [IndexError]
    on an empty list. *)
Definition current_product (self : Association) : outcome Product :=
  match products self with
  | None => Raises (Builtin KeyError)
  | Some ps =>
      match last ps with
      | Some product => Returns product
      | None => Raises IndexError
      end
  end.

(** The new product is appended; without the key ['products'] the list
    is started with it. *)
Definition new_product (self : Association) (product_name : string) : Association :=
  let product := {| name := product_name; members := Some [] |} in
  match products self with
  | Some ps => set_products self (ps ++ [product])
  | None => set_products self [product]
  end.

Definition update_asn (self : Association) : Association * option exn :=
  update_degraded_status self.

Section Membership.

(** The equality of members is defined by the [Member] class, which is
    not among the sources. *)
Variable member_eq : Member -> Member -> bool.

(** The loop over the current members, left at the first equal one. *)
Fixpoint is_member_loop (current_members : list Member) (new_member : Member) : bool :=
  match current_members with
  | [] => false
  | member :: rest =>
      if member_eq member new_member then true
      else is_member_loop rest new_member
  end.

(** The [try] covers the product lookup and the subscript ['members'];
    only [KeyError] is caught. *)
Definition is_member (self : Association) (new_member : Member) : outcome bool :=
  match current_product self with
  | Raises (Builtin KeyError) => Returns false
  | Raises e => Raises e
  | Returns product =>
      match members product with
      | None => Returns false
      | Some current_members => Returns (is_member_loop current_members new_member)
      end
  end.

(** The item that a member was made from ([member.item]). *)
Variable member_item : Member -> Item.

(** The comprehension over all members of all products; a [KeyError]
    anywhere in it gives the empty list. *)
Fixpoint from_items_loop (ps : list Product) : pyresult (list Item) :=
  match ps with
  | [] => Return []
  | product :: rest =>
      match members product with
      | None => Raise KeyError
      | Some ms =>
          let! items := from_items_loop rest in
          Return ((member_item <$> ms) ++ items)
      end
  end.

Definition from_items (self : Association) : list Item :=
  match (let! ps := match products self with
                    | Some ps => Return ps
                    | None => Raise KeyError
                    end in
         from_items_loop ps) with
  | Return items => items
  | Raise _ => []
  end.

(** [item in self.from_items] *)
Definition is_item_member (self : Association) (item : Item) : bool :=
  bool_decide (item ∈ from_items self).

End Membership.

(** Members are compared by their exposure name. *)
Definition same_expname (a b : Member) : bool :=
  bool_decide (a !! "expname" = b !! "expname").

(** An association whose first product has lost its members. *)
Definition broken_association : Association :=
  make_association "Asn_Image" "candidate" ∅ _DEGRADED_STATUS_OK
    (Some [ {| name := "first"; members := None |};
            {| name := "second";
               members := Some [ {[ "expname" := PyStr "exp1" ]} ] |} ]).

(** ** Name fragments *)

Fixpoint zeros (n : nat) : string :=
  match n with
  | O => ""
  | S k => String "0" (zeros k)
  end.

(** [format(s, '0>Ns')]: the string right-aligned in [width] characters,
    filled with zeros. *)
Definition rjust_zero (width : nat) (s : string) : string :=
  zeros (width - String.length s) +:+ s.

Definition _get_exposure (self : Association) : string :=
  match (let! c := getitem (constraints self) "activity_id" in
         Return (format_list (found_values c))) with
  | Raise _ => ""
  | Return activity_id =>
      if negb (py_in (PyStr activity_id) _EMPTY)
      then rjust_zero 2 activity_id
      else ""
  end.

Definition _get_instrument (self : Association) : pyresult string :=
  let! c := getitem (constraints self) "instrument" in
  Return (format_list (found_values c)).

Definition _get_subarray (self : Association) : string :=
  let subarray :=
    match (let! c := getitem (constraints self) "subarray" in
           Return (format_list (found_values c))) with
    | Return subarray => Some subarray
    | Raise _ => None
    end in
  let subarray :=
    match subarray with
    | Some s => if String.eqb s "full" then None else Some s
    | None => None
    end in
  match subarray with
  | Some s => s
  | None => ""
  end.

Definition _get_target (self : Association) : pyresult string :=
  let! c := getitem (constraints self) "target" in
  let target_id := format_list (found_values c) in
  Return ("t" +:+ rjust_zero 3 target_id).

(** ** asn_name *)

(** What the name is made of besides the sequence number:
    [self.data['program']] (always there, [__init__] sets it to
    ['noprogram'] when it is missing), [self.version_id],
    [self.data['asn_type']] ([None] when the key is absent) and
    [self.acid.id]. *)
Record Naming : Type := {
  program : string;
  version_id : option string;
  asn_type : option string;
  acid_id : string
}.

(** [format(n, '03d')]: the decimal digits, zero-padded to three
    characters, the sign included. *)
Definition format_03d (n : Z) : string :=
  if (n <? 0)%Z
  then "-" +:+ rjust_zero 2 (pretty (Z.abs_N n))
  else rjust_zero 3 (pretty (Z.to_N n)).

(** A version id that is [None] or empty selects the template without
    stamp.  A sequence that is still [None] cannot be formatted. *)
Definition asn_name (self : Association) (naming : Naming) : outcome string :=
  match asn_type naming with
  | None => Raises (Builtin KeyError)
  | Some type =>
      match sequence self with
      | None => Raises TypeError
      | Some n =>
          let stamped :=
            match version_id naming with
            | Some "" | None => false
            | Some _ => true
            end in
          let name :=
            if stamped
            then "jw" +:+ program naming +:+ "-" +:+ acid_id naming +:+ "_"
                 +:+ default "" (version_id naming) +:+ "_" +:+ type +:+ "_"
                 +:+ format_03d n +:+ "_asn"
            else "jw" +:+ program naming +:+ "-" +:+ acid_id naming +:+ "_"
                 +:+ type +:+ "_" +:+ format_03d n +:+ "_asn" in
          Returns (lower name)
      end
  end.

(** ** Validity tests *)

(** A validity test, the dictionary [{'validated': ..., 'check': ...}];
    [None] for a key that is absent. *)
Record ValidityTest : Type := {
  validated : option bool;
  check : option (Item -> bool)
}.

(** The loop over [self.validity.values()], in the order of the
    dictionary.  The result is the dictionary after the call and the
    exception raised if any; the tests before a missing key have been
    updated by then. *)
Fixpoint update_validity (validity : list (string * ValidityTest)) (entry : Item)
    : list (string * ValidityTest) * option exn :=
  match validity with
  | [] => ([], None)
  | (key, test) :: rest =>
      match validated test with
      | None => (validity, Some KeyError)
      | Some true =>
          let '(rest, e) := update_validity rest entry in
          ((key, test) :: rest, e)
      | Some false =>
          match check test with
          | None => (validity, Some KeyError)
          | Some f =>
              let test := {| validated := Some (f entry); check := check test |} in
              let '(rest, e) := update_validity rest entry in
              ((key, test) :: rest, e)
          end
      end
  end.

(** [all(test['validated'] for test in asn.validity.values())] *)
Fixpoint all_validated (validity : list (string * ValidityTest)) : pyresult bool :=
  match validity with
  | [] => Return true
  | (_, test) :: rest =>
      match validated test with
      | None => Raise KeyError
      | Some false => Return false
      | Some true => all_validated rest
      end
  end.

(** [validate], given the outcome of [super().validate(asn)], whether
    [asn] is an instance of the mixin, and its validity tests. *)
Definition validate (super_validate : outcome unit) (is_dms : bool)
    (validity : list (string * ValidityTest)) : outcome bool :=
  match super_validate with
  | Raises e => Raises e
  | Returns _ =>
      if is_dms then
        match all_validated validity with
        | Raise KeyError | Raise AttributeError =>
            Raises (AssociationNotValidError "Validation failed")
        | Raise e => Raises (Builtin e)
        | Return false =>
            Raises (AssociationNotValidError "Validation failed validity tests.")
        | Return true => Returns true
        end
      else Returns true
  end.

(** The validity after a history of entries, oldest first. *)
Fixpoint update_validity_all (validity : list (string * ValidityTest))
    (entries : list Item) : list (string * ValidityTest) * option exn :=
  match entries with
  | [] => (validity, None)
  | entry :: rest =>
      match update_validity validity entry with
      | (validity, None) => update_validity_all validity rest
      | raised => raised
      end
  end.

(** A test with both keys, and the same test once the entries have been
    seen. *)
Definition validity_test (t : string * bool * (Item -> bool))
    : string * ValidityTest :=
  let '(key, v, f) := t in (key, {| validated := Some v; check := Some f |}).

Definition validity_test_after (entries : list Item)
    (t : string * bool * (Item -> bool)) : string * ValidityTest :=
  let '(key, v, f) := t in
  (key, {| validated := Some (v || existsb f entries); check := Some f |}).

(** A test that asks for a science exposure. *)
Definition has_science (entry : Item) : bool :=
  bool_decide (entry !! "exptype" = Some (PyStr "science")).

(** ** The mode of operation of Main *)

Definition DISCOVER_RULESET : string := "discover".
Definition CANDIDATE_RULESET : string := "candidate".

(** The three selectors of the command line. *)
Record parsed_args : Type := {
  discover : bool;
  all_candidates : bool;
  asn_candidate_ids : option (list string)
}.

(** [Main.__init__], from "Determine mode of operation" to the global
    constraints: the selectors as they are used afterwards, and the
    dictionary of global constraints. *)
Definition mode_of_operation (parsed : parsed_args)
    : parsed_args * gmap string candidate_constraint :=
  let parsed :=
    if negb (discover parsed) && negb (all_candidates parsed)
       && bool_decide (asn_candidate_ids parsed = None)
    then {| discover := true; all_candidates := true;
            asn_candidate_ids := asn_candidate_ids parsed |}
    else parsed in
  let global_constraints : gmap string candidate_constraint :=
    if discover parsed || all_candidates parsed
    then {[ "asn_candidate" := constrain_on_candidates None ]}
    else match asn_candidate_ids parsed with
         | Some ids => {[ "asn_candidate" := constrain_on_candidates (Some ids) ]}
         | None => ∅
         end in
  (parsed, global_constraints).

(** * Properties *)

(** ** The attribute resolver *)

Lemma getattr_from_list_raises adict attributes invalid_values e :
  getattr_from_list adict attributes invalid_values = Raise e -> e = KeyError.
Proof.
  induction attributes as [|attribute rest IH]; simpl.
  - congruence.
  - destruct (adict !! attribute) as [v|]; [|exact IH].
    destruct (py_in v invalid_values); [exact IH | discriminate].
Qed.

Lemma item_getattr_raises self item attributes e :
  item_getattr self item attributes = Raise e -> e = KeyError.
Proof. apply getattr_from_list_raises. Qed.

(** An attribute resolves when the lookup returns. *)
Lemma item_getattr_cases self item attributes :
  (exists av, item_getattr self item attributes = Return av)
  \/ item_getattr self item attributes = Raise KeyError.
Proof.
  destruct (item_getattr self item attributes) as [av|e] eqn:E.
  - left. eauto.
  - right. f_equal. eapply item_getattr_raises, E.
Qed.

(** ** Time-series observations *)

(** C1: an item whose pointing type is present and is not "science" is
    never a time-series observation, whatever its other attributes, the
    constraints of the association and the additional exposure types. *)
Theorem is_item_tso_not_science (self : Association) (item : Item)
    (other_exp_types : option (list string)) (pntgtype : pyval) :
  item !! "pntgtype" = Some pntgtype ->
  pntgtype <> PyStr "science" ->
  is_item_tso self item other_exp_types = Return false.
Proof.
  intros Hp Hne. unfold is_item_tso, getitem. rewrite Hp. simpl.
  rewrite bool_decide_eq_false_2 by exact Hne. reflexivity.
Qed.

Lemma is_item_tso_not_science_witness :
  is_item_tso tso_association acquisition_item (Some ["mir_lyot"; "nrc_tsimage"])
  = Return false.
Proof.
  apply (is_item_tso_not_science tso_association acquisition_item
           (Some ["mir_lyot"; "nrc_tsimage"]) (PyStr "target_acquisition")).
  - reflexivity.
  - discriminate.
Defined.

(** The constraint lookup raises nothing but the two exceptions that
    [is_item_tso] catches. *)
Lemma is_tso_constraint_value_raises self e :
  is_tso_constraint_value self = Raise e -> e = KeyError \/ e = AttributeError.
Proof.
  unfold is_tso_constraint_value, getitem.
  destruct (constraints self !! "is_tso") as [c|]; simpl.
  - destruct (value c); intros H; inversion H; auto.
  - intros H; inversion H; auto.
Qed.

(** C9: the pointing type is a precondition of [is_item_tso].  Without
    the attribute the call raises [KeyError]; with it the call returns a
    boolean whatever else is missing. *)
Theorem is_item_tso_requires_pntgtype (self : Association) (item : Item)
    (other_exp_types : option (list string)) :
  (item !! "pntgtype" = None ->
     is_item_tso self item other_exp_types = Raise KeyError)
  /\ (is_Some (item !! "pntgtype") ->
        exists b, is_item_tso self item other_exp_types = Return b).
Proof.
  split.
  - intros Hp. unfold is_item_tso, getitem. rewrite Hp. reflexivity.
  - intros [p Hp]. unfold is_item_tso, getitem. rewrite Hp. cbn [bind].
    destruct (negb (bool_decide (p = PyStr "science"))); [eauto|].
    destruct (is_tso_constraint_value self) as [b0|e] eqn:E.
    2: destruct (is_tso_constraint_value_raises _ _ E); subst e.
    all: cbn [bind except_KeyError].
    all: repeat match goal with
         | |- context [if ?b then _ else _] =>
             destruct b; cbn [bind except_KeyError]
         | |- context [item_getattr ?s ?i ?l] =>
             let Hg := fresh "Hg" in
             destruct (item_getattr s i l) as [[? ?]|?] eqn:Hg;
             [|apply item_getattr_raises in Hg; subst];
             cbn [bind except_KeyError]
         end.
    all: eauto.
Qed.

Lemma is_item_tso_requires_pntgtype_witness :
  is_item_tso tso_association item_without_pntgtype None = Raise KeyError
  /\ exists b, is_item_tso (make_association "Asn_Image" "discover" ∅ "" None)
                 bare_science_item None = Return b.
Proof.
  split.
  - apply (is_item_tso_requires_pntgtype tso_association item_without_pntgtype None).
    reflexivity.
  - apply (is_item_tso_requires_pntgtype
             (make_association "Asn_Image" "discover" ∅ "" None)
             bare_science_item None).
    exists (PyStr "science"). reflexivity.
Defined.

(** ** Exposure types *)

(** C6: with the default ["science"], [get_exposure_type] raises
    [LookupError] exactly for the items without [exp_type]; for the others
    it returns the entry of [EXPTYPE_MAP], ["science"] for an exposure type
    that the table does not list, and a result ["science"] is overridden
    by the first of psf, imprint and background whose source ([is_psf],
    [is_imprt], [bkgdtarg]) resolves to a value that is not a sentinel. *)
Theorem get_exposure_type_science (self : Association) (item : Item) :
  (get_exposure_type self item (Some "science") = Raise LookupError
     <-> item !! "exp_type" = None)
  /\ (forall exp_type : pyval,
        item !! "exp_type" = Some exp_type ->
        let mapped :=
          match exp_type with
          | PyStr s => default "science" (EXPTYPE_MAP !! s)
          | PyNone => "science"
          end in
        (mapped <> "science" ->
           get_exposure_type self item (Some "science") = Return mapped)
        /\ (mapped = "science" ->
              (resolves self item ["is_psf"] ->
                 get_exposure_type self item (Some "science") = Return "psf")
              /\ (~ resolves self item ["is_psf"] ->
                  resolves self item ["is_imprt"] ->
                    get_exposure_type self item (Some "science") = Return "imprint")
              /\ (~ resolves self item ["is_psf"] ->
                  ~ resolves self item ["is_imprt"] ->
                  resolves self item ["bkgdtarg"] ->
                    get_exposure_type self item (Some "science") = Return "background")
              /\ (~ resolves self item ["is_psf"] ->
                  ~ resolves self item ["is_imprt"] ->
                  ~ resolves self item ["bkgdtarg"] ->
                    get_exposure_type self item (Some "science") = Return "science"))).
Proof.
  assert (Hget : forall exp_type,
            exptype_get exp_type (Some "science")
            = Some match exp_type with
                   | PyStr s => default "science" (EXPTYPE_MAP !! s)
                   | PyNone => "science"
                   end).
  { intros [|s]; unfold exptype_get; [reflexivity|].
    destruct (EXPTYPE_MAP !! s); reflexivity. }
  assert (Hloop : forall e, special_loop self item SPECIAL_EXPTYPES "science" <> Raise e).
  { intros e. unfold SPECIAL_EXPTYPES. cbn [special_loop].
    repeat match goal with
    | |- context [item_getattr ?s ?i ?l] =>
        let Hg := fresh "Hg" in
        destruct (item_getattr s i l) as [[? ?]|?] eqn:Hg;
        [|apply item_getattr_raises in Hg; subst]
    end; discriminate. }
  split.
  - unfold get_exposure_type. destruct (item !! "exp_type") as [exp_type|]; [|tauto].
    rewrite Hget. split; [|discriminate].
    destruct (String.eqb _ "science") eqn:Es; [|discriminate].
    apply String.eqb_eq in Es. rewrite Es. intros H. destruct (Hloop _ H).
  - intros exp_type He mapped. unfold get_exposure_type. rewrite He, Hget.
    fold mapped. split.
    + intros Hne. apply String.eqb_neq in Hne. rewrite Hne. reflexivity.
    + intros Heq. rewrite Heq. rewrite String.eqb_refl.
      unfold SPECIAL_EXPTYPES, resolves. cbn [special_loop].
      repeat split; intros;
      repeat match goal with
      | H : exists av, item_getattr ?s ?i ?l = Return av |- _ =>
          destruct H as [? H]; rewrite H
      | H : ~ (exists av, item_getattr ?s ?i ?l = Return av) |- _ =>
          let Hg := fresh "Hg" in
          destruct (item_getattr s i l) as [[? ?]|?] eqn:Hg;
          [exfalso; apply H; eauto
          |apply item_getattr_raises in Hg; subst; clear H]
      end; reflexivity.
Qed.

Lemma get_exposure_type_science_witness :
  get_exposure_type tso_association item_without_exp_type (Some "science")
    = Raise LookupError
  /\ get_exposure_type tso_association imprint_item (Some "science")
    = Return "imprint".
Proof.
  split.
  - apply (get_exposure_type_science tso_association item_without_exp_type).
    reflexivity.
  - destruct (get_exposure_type_science tso_association imprint_item) as [_ H].
    destruct (H (PyStr "mir_mrs")) as [_ Hs]; [reflexivity|].
    destruct Hs as (_ & Himprint & _); [vm_compute; reflexivity|].
    apply Himprint.
    + intros [av Hav]. vm_compute in Hav. discriminate.
    + exists ("is_imprt", PyStr "t"). vm_compute. reflexivity.
Defined.

(** ** Candidate constraints *)

(** C7: the match value of the [asn_candidate] constraint is the
    disjunction of the candidate ids between [.+(] and [).+], and [None]
    when no id is given. *)
Theorem constrain_on_candidates_value :
  cc_value (constrain_on_candidates (Some ["o001"; "o002"]))
    = PyStr ".+(o001|o002).+"
  /\ (forall ids : list string,
        ids <> [] ->
        cc_value (constrain_on_candidates (Some ids))
          = PyStr (".+(" +:+ String.concat "|" ids +:+ ").+"))
  /\ cc_value (constrain_on_candidates None) = PyNone
  /\ cc_value (constrain_on_candidates (Some [])) = PyNone
  /\ (forall candidates,
        cc_inputs (constrain_on_candidates candidates) = ["asn_candidate"]).
Proof.
  split; [reflexivity|]. split; [|repeat split].
  intros [|c cs] Hne; [congruence|].
  unfold constrain_on_candidates. cbn [cc_value].
  generalize (String.concat "|" (c :: cs)). intros c_list. reflexivity.
Qed.

Lemma constrain_on_candidates_value_witness :
  cc_value (constrain_on_candidates (Some ["o001"; "o002"; "c1000"]))
    = PyStr ".+(o001|o002|c1000).+".
Proof.
  destruct constrain_on_candidates_value as (_ & Hgeneral & _).
  apply (Hgeneral ["o001"; "o002"; "c1000"]). discriminate.
Defined.

(** ** Degraded status *)

Lemma exposerr_set_spec member : exposerr_set member = true <-> has_exposerr member.
Proof.
  unfold exposerr_set, has_exposerr, py_in.
  destruct (member !! "exposerr") as [v|].
  - rewrite negb_true_iff, bool_decide_eq_false. split.
    + intros H. exists v. auto.
    + intros (v' & Hv & Hn). congruence.
  - split; [discriminate|]. intros (v & Hv & _). discriminate.
Qed.

Lemma members_loop_spec ms status :
  members_loop ms status
  = if existsb exposerr_set ms then _DEGRADED_STATUS_NOTOK else status.
Proof.
  induction ms as [|member rest IH]; [reflexivity|].
  cbn [members_loop existsb]. unfold exposerr_set at 1.
  destruct (member !! "exposerr") as [v|]; [|exact IH].
  destruct (negb (py_in v _EMPTY)); [reflexivity|exact IH].
Qed.

Lemma products_loop_clean ps status :
  (forall m, m ∈ concat (map (fun product => default [] (members product)) ps) ->
             ~ has_exposerr m) ->
  (products_loop ps status).1 = status.
Proof.
  revert status. induction ps as [|product rest IH]; intros status Hclean.
  - reflexivity.
  - cbn [products_loop]. destruct (members product) as [ms|] eqn:Ems; [|reflexivity].
    cbn [map concat] in Hclean. rewrite Ems in Hclean. cbn [default] in Hclean.
    rewrite members_loop_spec.
    destruct (existsb exposerr_set ms) eqn:Eb.
    + apply existsb_exists in Eb. destruct Eb as (m & Hin & Hm).
      exfalso. apply (Hclean m).
      * apply elem_of_app. left. apply list_elem_of_In, Hin.
      * apply exposerr_set_spec, Hm.
    + apply IH. intros m Hm. apply Hclean. apply elem_of_app. right. exact Hm.
Qed.

Lemma products_loop_flips ps status :
  Forall (fun product => is_Some (members product)) ps ->
  (exists m, m ∈ concat (map (fun product => default [] (members product)) ps)
             /\ has_exposerr m) ->
  products_loop ps status = (_DEGRADED_STATUS_NOTOK, None).
Proof.
  assert (Hstay : forall qs,
            Forall (fun product => is_Some (members product)) qs ->
            products_loop qs _DEGRADED_STATUS_NOTOK = (_DEGRADED_STATUS_NOTOK, None)).
  { induction qs as [|q qs IH]; intros Hwf; [reflexivity|].
    inversion Hwf as [|? ? [ms Hms] Hwf']; subst.
    cbn [products_loop]. rewrite Hms, members_loop_spec.
    destruct (existsb exposerr_set ms); apply IH, Hwf'. }
  revert status. induction ps as [|product rest IH]; intros status Hwf (m & Hin & Hm).
  - inversion Hin.
  - inversion Hwf as [|? ? [ms Hms] Hwf']; subst.
    cbn [products_loop]. rewrite Hms, members_loop_spec.
    cbn [map concat] in Hin. rewrite Hms in Hin. cbn [default] in Hin.
    apply elem_of_app in Hin. destruct Hin as [Hin|Hin].
    + assert (Eb : existsb exposerr_set ms = true).
      { apply existsb_exists. exists m. split.
        - apply list_elem_of_In, Hin.
        - apply exposerr_set_spec, Hm. }
      rewrite Eb. apply Hstay, Hwf'.
    + destruct (existsb exposerr_set ms); [apply Hstay, Hwf'|].
      apply IH; eauto.
Qed.

Lemma degraded_status_values : _DEGRADED_STATUS_NOTOK <> _DEGRADED_STATUS_OK.
Proof. discriminate. Qed.

(** C2: the degraded status is monotonic.  A call leaves the status OK
    when no member of any product has a non-sentinel [exposerr]; it sets
    the status to NOT_OK when a member of a product has one; and a status
    that is not OK is never changed by a call, whatever the members are
    by then. *)
Theorem update_degraded_status_monotonic (self : Association) :
  (degraded_status self = _DEGRADED_STATUS_OK ->
   (forall m, m ∈ all_members self -> ~ has_exposerr m) ->
   degraded_status (update_degraded_status self).1 = _DEGRADED_STATUS_OK)
  /\ (degraded_status self = _DEGRADED_STATUS_OK ->
      has_products self ->
      (exists m, m ∈ all_members self /\ has_exposerr m) ->
      update_degraded_status self
      = (set_degraded_status self _DEGRADED_STATUS_NOTOK, None))
  /\ (degraded_status self <> _DEGRADED_STATUS_OK ->
      update_degraded_status self = (self, None)).
Proof.
  unfold update_degraded_status, all_members, has_products.
  repeat split.
  - intros Hok Hclean. rewrite Hok, String.eqb_refl.
    destruct (products self) as [ps|]; [|exact Hok].
    pose proof (products_loop_clean ps _DEGRADED_STATUS_OK Hclean) as Hl.
    destruct (products_loop ps _DEGRADED_STATUS_OK) as [status e].
    exact Hl.
  - intros Hok (ps & Hps & Hwf) Hbad. rewrite Hok, String.eqb_refl, Hps.
    rewrite Hps in Hbad.
    rewrite (products_loop_flips ps _DEGRADED_STATUS_OK Hwf Hbad). reflexivity.
  - intros Hne. apply String.eqb_neq in Hne. rewrite Hne. reflexivity.
Qed.

Lemma update_degraded_status_monotonic_witness :
  degraded_status
    (update_degraded_status
       (make_association "Asn_Image" "candidate" ∅ _DEGRADED_STATUS_OK
          (Some clean_products))).1
  = _DEGRADED_STATUS_OK
  /\ degraded_status
       (update_degraded_status
          (make_association "Asn_Image" "candidate" ∅ _DEGRADED_STATUS_OK
             (Some degraded_products))).1
     = _DEGRADED_STATUS_NOTOK
  /\ degraded_status
       (update_degraded_status
          (make_association "Asn_Image" "candidate" ∅ _DEGRADED_STATUS_NOTOK
             (Some clean_products))).1
     = _DEGRADED_STATUS_NOTOK.
Proof.
  split; [|split].
  - apply (update_degraded_status_monotonic
             (make_association "Asn_Image" "candidate" ∅ _DEGRADED_STATUS_OK
                (Some clean_products))).
    + reflexivity.
    + intros m Hm (v & Hv & Hn).
      apply list_elem_of_singleton in Hm. subst m.
      vm_compute in Hv. inversion Hv. subst v.
      apply Hn. apply (bool_decide_unpack _). vm_compute. exact I.
  - destruct (update_degraded_status_monotonic
                (make_association "Asn_Image" "candidate" ∅ _DEGRADED_STATUS_OK
                   (Some degraded_products))) as (_ & Hflip & _).
    rewrite Hflip; [reflexivity|reflexivity| |].
    + exists degraded_products. split; [reflexivity|].
      repeat constructor; eexists; reflexivity.
    + exists {[ "expname" := PyStr "jw00001001001_01101_00003_mirimage";
               "exposerr" := PyStr "guide star lost" ]}.
      split.
      * cbn. do 2 apply list_elem_of_further. apply list_elem_of_here.
      * exists (PyStr "guide star lost"). split; [reflexivity|].
        intros Hin. apply (bool_decide_eq_true_2 _) in Hin.
        vm_compute in Hin. discriminate.
  - destruct (update_degraded_status_monotonic
                (make_association "Asn_Image" "candidate" ∅ _DEGRADED_STATUS_NOTOK
                   (Some clean_products))) as (_ & _ & Hstay).
    rewrite Hstay; [reflexivity|discriminate].
Defined.

(** ** The sort by lower-case key *)

(** [sort_lower] rearranges the list and puts the keys in ascending
    order, as [list.sort(key=str.lower)] does. *)
Lemma insert_lower_perm x sorted : insert_lower x sorted ≡ₚ x :: sorted.
Proof.
  induction sorted as [|y ys IH]; [reflexivity|].
  cbn [insert_lower]. destruct (String.leb (lower x) (lower y)); [reflexivity|].
  rewrite IH. apply Permutation_swap.
Qed.

Lemma sort_lower_perm alist : sort_lower alist ≡ₚ alist.
Proof.
  induction alist as [|x l IH]; [reflexivity|].
  cbn [sort_lower foldr]. fold (sort_lower l).
  rewrite insert_lower_perm, IH. reflexivity.
Qed.

Lemma insert_lower_sorted x sorted :
  StronglySorted lower_le sorted -> StronglySorted lower_le (insert_lower x sorted).
Proof.
  induction 1 as [|y ys Hys IH Hy]; cbn [insert_lower].
  - repeat constructor.
  - destruct (String.leb (lower x) (lower y)) eqn:E.
    + constructor; [constructor; assumption|].
      assert (Hxy : lower_le x y) by (unfold lower_le, String.le; rewrite E; exact I).
      constructor; [exact Hxy|].
      eapply Forall_impl; [exact Hy|]. intros z Hz.
      unfold lower_le in *. etrans; eassumption.
    + constructor; [exact IH|].
      assert (Hyx : lower_le y x).
      { unfold lower_le. destruct (total String.le (lower x) (lower y)) as [H|H];
          [|exact H]. unfold String.le in H. rewrite E in H. destruct H. }
      rewrite insert_lower_perm. constructor; assumption.
Qed.

Lemma sort_lower_sorted alist : StronglySorted lower_le (sort_lower alist).
Proof.
  induction alist as [|x l IH]; [constructor|].
  cbn [sort_lower foldr]. apply insert_lower_sorted, IH.
Qed.

(** ** Optical elements *)

Lemma opt_elems_loop_spec self names opt_elems :
  opt_elems_loop self names opt_elems
  = opt_elems
    ++ List.filter (fun v => negb (py_in (PyStr v) _EMPTY))
         (omap (fun n => (fun c => format_list (sort_lower (found_values c)))
                           <$> constraints self !! n) names).
Proof.
  revert opt_elems. induction names as [|n rest IH]; intros opt_elems.
  - cbn. rewrite app_nil_r. reflexivity.
  - cbn [opt_elems_loop omap list_omap]. unfold getitem.
    destruct (constraints self !! n) as [c|]; cbn [fmap option_fmap option_map].
    + cbn [List.filter].
      destruct (negb (py_in (PyStr (format_list (sort_lower (found_values c)))) _EMPTY)).
      * rewrite IH, <- app_assoc. reflexivity.
      * apply IH.
    + apply IH.
Qed.

(** A sentinel result is dropped, and the results of the constraints are
    sorted again. *)
Example get_opt_element_filter_pupil :
  _get_opt_element filter_pupil_association = "CLEAR-f150w2-F444W".
Proof. vm_compute. reflexivity. Qed.

(** The fragment keeps the letter case of the found values. *)
Lemma get_opt_element_keeps_case :
  _get_opt_element two_filter_association <> "f560w-f770w".
Proof. vm_compute. discriminate. Qed.

(** C5, amended: the optical-element fragment is computed from the found
    values of the constraints [opt_elem], [opt_elem2] and [opt_elem3] that
    exist, each list sorted case-insensitively and joined with [-], the
    non-sentinel results sorted case-insensitively and joined with [-];
    an empty result gives ["clear"].  The found values keep their letter
    case: for ["F770W"] and ["f560w"] the fragment is ["f560w-F770W"]. *)
Theorem get_opt_element_fragment (self : Association) :
  _get_opt_element self = opt_element_spec self
  /\ _get_opt_element self <> ""
  /\ ((forall n, n ∈ ["opt_elem"; "opt_elem2"; "opt_elem3"] ->
         forall c, constraints self !! n = Some c -> found_values c = []) ->
      _get_opt_element self = "clear")
  /\ (forall c,
        constraints self = {[ "opt_elem" := c ]} ->
        found_values c = ["F770W"; "f560w"] ->
        _get_opt_element self = "f560w-F770W").
Proof.
  assert (Hspec : _get_opt_element self = opt_element_spec self).
  { unfold _get_opt_element, opt_element_spec, format_list.
    rewrite opt_elems_loop_spec. cbn [app].
    match goal with |- context [String.eqb ?x ""] =>
      destruct (String.eqb_spec x "") as [E|E] end;
    destruct (decide _) as [E'|E']; try reflexivity; contradiction. }
  split; [exact Hspec|]. split; [|split].
  - unfold _get_opt_element.
    match goal with |- context [String.eqb ?x ""] =>
      destruct (String.eqb_spec x "") as [E|E]; [discriminate|exact E] end.
  - intros Hempty. rewrite Hspec. unfold opt_element_spec.
    cbn [omap list_omap].
    assert (Hn : forall n, n ∈ ["opt_elem"; "opt_elem2"; "opt_elem3"] ->
              (fun c => format_list (sort_lower (found_values c)))
                <$> constraints self !! n = None
              \/ (fun c => format_list (sort_lower (found_values c)))
                   <$> constraints self !! n = Some "").
    { intros n Hin. destruct (constraints self !! n) as [c|] eqn:Ec; [|auto].
      right. cbn. rewrite (Hempty n Hin c Ec). reflexivity. }
    destruct (Hn "opt_elem" ltac:(set_solver)) as [-> | ->];
    destruct (Hn "opt_elem2" ltac:(set_solver)) as [-> | ->];
    destruct (Hn "opt_elem3" ltac:(set_solver)) as [-> | ->];
    reflexivity.
  - intros c Hc Hf. rewrite Hspec. unfold opt_element_spec.
    cbn [omap list_omap]. rewrite Hc.
    rewrite lookup_singleton_eq.
    rewrite !lookup_singleton_ne by discriminate.
    cbn [fmap option_fmap option_map]. rewrite Hf. vm_compute. reflexivity.
Qed.

Lemma get_opt_element_fragment_witness :
  _get_opt_element two_filter_association = "f560w-F770W"
  /\ _get_opt_element (make_association "Asn_Image" "candidate" ∅ "" None) = "clear".
Proof.
  split.
  - destruct (get_opt_element_fragment two_filter_association) as (_ & _ & _ & H).
    apply (H {| value := None; found_values := ["F770W"; "f560w"] |});
      reflexivity.
  - destruct (get_opt_element_fragment
                (make_association "Asn_Image" "candidate" ∅ "" None))
      as (_ & _ & H & _).
    apply H. intros n _ c Hc. cbn in Hc. rewrite lookup_empty in Hc. discriminate.
Defined.

(** ** Filtering the discovered associations *)

Lemma filter_all_true {A} (f : A -> bool) (l : list A) :
  (forall x, In x l -> f x = true) -> List.filter f l = l.
Proof.
  induction l as [|x l IH]; intros H; [reflexivity|].
  cbn. rewrite (H x (or_introl eq_refl)). f_equal. apply IH.
  intros y Hy. apply H. right. exact Hy.
Qed.

Lemma filter_all_false {A} (f : A -> bool) (l : list A) :
  (forall x, In x l -> f x = false) -> List.filter f l = [].
Proof.
  induction l as [|x l IH]; intros H; [reflexivity|].
  cbn. rewrite (H x (or_introl eq_refl)). apply IH.
  intros y Hy. apply H. right. exact Hy.
Qed.

Lemma filter_twice {A} (f g : A -> bool) (l : list A) :
  List.filter f (List.filter g l) = List.filter (fun x => g x && f x) l.
Proof.
  induction l as [|x l IH]; [reflexivity|].
  cbn. destruct (g x); cbn; [destruct (f x)|]; rewrite IH; reflexivity.
Qed.

Section FilterDiscoveredProperties.

Variable asn_eq : Association -> Association -> bool.
Variables discover_ruleset candidate_ruleset : string.

Abbreviation valid := (from_ruleset discover_ruleset candidate_ruleset).
Abbreviation buckets := (buckets discover_ruleset candidate_ruleset).

Lemma buckets_initial :
  buckets [] (<[discover_ruleset := []]> (<[candidate_ruleset := []]> ∅)).
Proof.
  intros k. case_bool_decide as Hk.
  - destruct (decide (k = discover_ruleset)) as [->|Hd].
    + rewrite lookup_insert_eq. reflexivity.
    + rewrite lookup_insert_ne by congruence.
      destruct Hk as [Hk|Hk]; [contradiction|]. subst k.
      rewrite lookup_insert_eq. reflexivity.
  - rewrite !lookup_insert_ne by (intros ->; tauto). apply lookup_empty.
Qed.

Lemma of_ruleset_snoc k seen asn :
  of_ruleset k (seen ++ [asn])
  = if bool_decide (registry_name asn = k)
    then of_ruleset k seen ++ [asn] else of_ruleset k seen.
Proof.
  unfold of_ruleset. rewrite List.filter_app. cbn.
  destruct (bool_decide (registry_name asn = k)); [reflexivity|apply app_nil_r].
Qed.

Lemma partition_loop_buckets rest : forall seen m,
  buckets seen m ->
  Forall valid rest ->
  exists m', partition_loop rest m = Return m' /\ buckets (seen ++ rest) m'.
Proof.
  induction rest as [|asn rest IH]; intros seen m Hm Hvalid.
  - exists m. rewrite app_nil_r. auto.
  - inversion Hvalid as [|? ? Hasn Hrest]; subst.
    cbn [partition_loop]. unfold getitem.
    pose proof (Hm (registry_name asn)) as Hn.
    rewrite bool_decide_eq_true_2 in Hn by exact Hasn.
    rewrite Hn. cbn [bind].
    destruct (IH (seen ++ [asn])
                (<[registry_name asn := of_ruleset (registry_name asn) seen ++ [asn]]> m))
      as (m' & Hrun & Hm'); [|exact Hrest|].
    + intros k. rewrite of_ruleset_snoc.
      destruct (decide (registry_name asn = k)) as [<-|Hk].
      * rewrite lookup_insert_eq, !bool_decide_eq_true_2 by auto. reflexivity.
      * rewrite lookup_insert_ne by exact Hk.
        rewrite (bool_decide_eq_false_2 (registry_name asn = k)) by exact Hk.
        apply Hm.
    + exists m'. split; [exact Hrun|]. rewrite <- app_assoc in Hm'. exact Hm'.
Qed.

Lemma partition_loop_foreign rest : forall m asn,
  (forall k, is_Some (m !! k) -> k = discover_ruleset \/ k = candidate_ruleset) ->
  asn ∈ rest ->
  ~ valid asn ->
  partition_loop rest m = Raise KeyError.
Proof.
  induction rest as [|a rest IH]; intros m asn Hm Hin Hforeign.
  - inversion Hin.
  - cbn [partition_loop]. unfold getitem.
    destruct (m !! registry_name a) as [bucket|] eqn:Ea; [|reflexivity].
    cbn [bind]. apply elem_of_cons in Hin. destruct Hin as [->|Hin].
    + exfalso. apply Hforeign. apply Hm. eauto.
    + apply (IH _ asn); [|exact Hin|exact Hforeign].
      intros k [v Hk]. destruct (decide (registry_name a = k)) as [<-|Hne].
      * apply Hm. eauto.
      * rewrite lookup_insert_ne in Hk by exact Hne. apply Hm. eauto.
Qed.

Lemma unique_loop_spec candidate discover_list : forall unique_list,
  unique_loop asn_eq candidate discover_list unique_list
  = unique_list
    ++ List.filter (fun discover => negb (asn_eq discover candidate)) discover_list.
Proof.
  induction discover_list as [|discover rest IH]; intros unique_list.
  - cbn. rewrite app_nil_r. reflexivity.
  - cbn [unique_loop List.filter].
    destruct (negb (asn_eq discover candidate)).
    + rewrite IH, <- app_assoc. reflexivity.
    + apply IH.
Qed.

Lemma candidates_loop_spec candidate_list : forall discover_list,
  candidates_loop asn_eq candidate_list discover_list
  = List.filter (equals_no_candidate asn_eq candidate_list) discover_list.
Proof.
  induction candidate_list as [|candidate rest IH]; intros discover_list.
  - cbn [candidates_loop]. symmetry. apply filter_all_true. reflexivity.
  - cbn [candidates_loop]. destruct discover_list as [|discover ds].
    + reflexivity.
    + cbn [length Nat.eqb]. rewrite IH, unique_loop_spec. cbn [app].
      rewrite filter_twice. reflexivity.
Qed.

(** What the function returns on the associations of the two rulesets. *)
Lemma filter_discovered_only_returns associations keep_candidates :
  from_rulesets discover_ruleset candidate_ruleset associations ->
  filter_discovered_only asn_eq associations
    discover_ruleset candidate_ruleset keep_candidates
  = Return
      (List.filter
         (equals_no_candidate asn_eq (of_ruleset candidate_ruleset associations))
         (of_ruleset discover_ruleset associations)
       ++ (if keep_candidates
           then of_ruleset candidate_ruleset associations else [])).
Proof.
  intros Hvalid. unfold filter_discovered_only.
  destruct (partition_loop_buckets associations [] _ buckets_initial Hvalid)
    as (m & -> & Hm).
  cbn [bind app] in *. unfold getitem.
  rewrite (Hm candidate_ruleset), (Hm discover_ruleset).
  rewrite !bool_decide_eq_true_2 by auto. cbn [bind].
  rewrite candidates_loop_spec.
  destruct keep_candidates; [reflexivity|]. rewrite app_nil_r. reflexivity.
Qed.

End FilterDiscoveredProperties.

Lemma of_ruleset_in ruleset associations asn :
  In asn (of_ruleset ruleset associations) ->
  In asn associations /\ registry_name asn = ruleset.
Proof.
  unfold of_ruleset. rewrite filter_In, bool_decide_eq_true. tauto.
Qed.

(** C3: on associations of the two rulesets, the function returns the
    discovered associations that equal no candidate association, in their
    order, followed by all candidate associations when they are kept and
    by none of them otherwise. *)
Theorem filter_discovered_only_result
    (asn_eq : Association -> Association -> bool)
    (associations : list Association)
    (discover_ruleset candidate_ruleset : string) (keep_candidates : bool) :
  from_rulesets discover_ruleset candidate_ruleset associations ->
  filter_discovered_only asn_eq associations
    discover_ruleset candidate_ruleset keep_candidates
  = Return
      (List.filter
         (equals_no_candidate asn_eq (of_ruleset candidate_ruleset associations))
         (of_ruleset discover_ruleset associations)
       ++ (if keep_candidates
           then of_ruleset candidate_ruleset associations else [])).
Proof. apply filter_discovered_only_returns. Qed.

Lemma filter_discovered_only_result_witness :
  filter_discovered_only same_members generated_associations
    "discover" "candidate" true
  = Return
      [ association_of "discover_Asn_Image" "discover" ["exp1"; "exp2"; "exp3"];
        association_of "candidate_Asn_Image" "candidate" ["exp1"; "exp2"];
        association_of "candidate_Asn_Image" "candidate" ["exp3"] ].
Proof.
  rewrite (filter_discovered_only_result same_members generated_associations
             "discover" "candidate" true).
  - vm_compute. reflexivity.
  - repeat constructor; (left; reflexivity) || (right; reflexivity).
Defined.

(** C4: filtering is idempotent.  On associations of the two rulesets the
    function returns a list, and filtering that list again, with the same
    ruleset names and the same flag, returns it unchanged.  When one name
    serves as both rulesets and the candidates are kept, this uses that an
    association equals itself. *)
Theorem filter_discovered_only_idempotent
    (asn_eq : Association -> Association -> bool)
    (associations : list Association)
    (discover_ruleset candidate_ruleset : string) (keep_candidates : bool) :
  (discover_ruleset <> candidate_ruleset
   \/ keep_candidates = false
   \/ forall asn, asn_eq asn asn = true) ->
  from_rulesets discover_ruleset candidate_ruleset associations ->
  exists filtered,
    filter_discovered_only asn_eq associations
      discover_ruleset candidate_ruleset keep_candidates = Return filtered
    /\ filter_discovered_only asn_eq filtered
         discover_ruleset candidate_ruleset keep_candidates = Return filtered.
Proof.
  intros Hcase Hvalid.
  set (D := of_ruleset discover_ruleset associations).
  set (C := of_ruleset candidate_ruleset associations).
  set (F := List.filter (equals_no_candidate asn_eq C) D).
  set (K := if keep_candidates then C else []).
  exists (F ++ K). split; [apply filter_discovered_only_returns, Hvalid|].
  assert (HF : forall asn, In asn F ->
            registry_name asn = discover_ruleset
            /\ equals_no_candidate asn_eq C asn = true /\ In asn D).
  { intros asn Hin. apply filter_In in Hin. destruct Hin as [HD Hno].
    apply of_ruleset_in in HD as HD'. tauto. }
  assert (HK : forall asn, In asn K ->
            registry_name asn = candidate_ruleset /\ In asn C).
  { intros asn Hin. unfold K in Hin. destruct keep_candidates; [|destruct Hin].
    apply of_ruleset_in in Hin as Hin'. tauto. }
  rewrite filter_discovered_only_returns.
  2: { apply Forall_forall. intros asn Hin. apply list_elem_of_In, in_app_or in Hin.
       destruct Hin as [Hin|Hin]; [left; apply HF, Hin|right; apply HK, Hin]. }
  f_equal. unfold of_ruleset at 1 2 3. rewrite !List.filter_app.
  fold (of_ruleset discover_ruleset F) (of_ruleset discover_ruleset K)
       (of_ruleset candidate_ruleset F) (of_ruleset candidate_ruleset K).
  assert (HFd : of_ruleset discover_ruleset F = F).
  { apply filter_all_true. intros asn Hin. apply bool_decide_eq_true, HF, Hin. }
  assert (HKc : of_ruleset candidate_ruleset K = K).
  { apply filter_all_true. intros asn Hin. apply bool_decide_eq_true, HK, Hin. }
  rewrite HFd, HKc.
  destruct (decide (discover_ruleset = candidate_ruleset)) as [Heq|Hne].
  - (* one name for both rulesets: every association is on both sides *)
    assert (HDC : D = C) by (unfold D, C; rewrite Heq; reflexivity).
    assert (HFc : of_ruleset candidate_ruleset F = F).
    { apply filter_all_true. intros asn Hin.
      apply bool_decide_eq_true. apply HF in Hin. destruct Hin. congruence. }
    assert (HKd : of_ruleset discover_ruleset K = K).
    { apply filter_all_true. intros asn Hin.
      apply bool_decide_eq_true. apply HK in Hin. destruct Hin. congruence. }
    rewrite HFc, HKd.
    destruct Hcase as [Hne|[Hkeep|Hrefl]]; [contradiction| |].
    + unfold K. rewrite Hkeep. rewrite !app_nil_r.
      apply filter_all_true. intros asn Hin.
      unfold equals_no_candidate. apply forallb_forall. intros cand Hcand.
      destruct (HF asn Hin) as (_ & Hno & _).
      unfold equals_no_candidate in Hno.
      apply (proj1 (forallb_forall _ _) Hno).
      rewrite <- HDC. apply HF, Hcand.
    + assert (HFnil : F = []).
      { apply filter_all_false. intros asn Hin.
        apply not_true_is_false. intros Hno.
        unfold equals_no_candidate in Hno.
        rewrite HDC in Hin.
        apply (proj1 (forallb_forall _ _) Hno) in Hin.
        rewrite (Hrefl asn) in Hin. discriminate. }
      rewrite HFnil. cbn [app].
      assert (HKK : List.filter (equals_no_candidate asn_eq K) K = []).
      { apply filter_all_false. intros asn Hin.
        apply not_true_is_false. intros Hno.
        unfold equals_no_candidate in Hno.
        apply (proj1 (forallb_forall _ _) Hno) in Hin.
        rewrite (Hrefl asn) in Hin. discriminate. }
      rewrite HKK. unfold K. destruct keep_candidates; reflexivity.
  - (* two names: the sides are disjoint *)
    assert (HKd : of_ruleset discover_ruleset K = []).
    { apply filter_all_false. intros asn Hin.
      apply bool_decide_eq_false. apply HK in Hin. intros Hd.
      apply Hne. destruct Hin as [Hin _]. congruence. }
    assert (HFc : of_ruleset candidate_ruleset F = []).
    { apply filter_all_false. intros asn Hin.
      apply bool_decide_eq_false. apply HF in Hin. intros Hc.
      apply Hne. destruct Hin as [Hin _]. congruence. }
    rewrite HKd, HFc, app_nil_r. cbn [app].
    assert (HFF : List.filter (equals_no_candidate asn_eq K) F = F).
    { apply filter_all_true. intros asn Hin. unfold K.
      destruct keep_candidates; [apply HF, Hin|reflexivity]. }
    rewrite HFF. unfold K. destruct keep_candidates; reflexivity.
Qed.

Lemma filter_discovered_only_idempotent_witness :
  exists filtered,
    filter_discovered_only same_members generated_associations
      "discover" "candidate" true = Return filtered
    /\ filter_discovered_only same_members filtered
         "discover" "candidate" true = Return filtered.
Proof.
  apply (filter_discovered_only_idempotent same_members generated_associations
           "discover" "candidate" true).
  - left. discriminate.
  - repeat constructor; (left; reflexivity) || (right; reflexivity).
Defined.

(** C10: an association of any other ruleset makes the function raise
    [KeyError]: the partition has a bucket for the two names only. *)
Theorem filter_discovered_only_foreign_ruleset
    (asn_eq : Association -> Association -> bool)
    (associations : list Association)
    (discover_ruleset candidate_ruleset : string) (keep_candidates : bool)
    (asn : Association) :
  asn ∈ associations ->
  registry_name asn <> discover_ruleset ->
  registry_name asn <> candidate_ruleset ->
  filter_discovered_only asn_eq associations
    discover_ruleset candidate_ruleset keep_candidates
  = Raise KeyError.
Proof.
  intros Hin Hd Hc. unfold filter_discovered_only.
  rewrite (partition_loop_foreign discover_ruleset candidate_ruleset
             associations _ asn); [reflexivity| |exact Hin|].
  - intros k [v Hk]. pose proof (buckets_initial discover_ruleset candidate_ruleset k) as Hb.
    rewrite Hk in Hb. case_bool_decide; [assumption|discriminate].
  - unfold from_ruleset. tauto.
Qed.

Lemma filter_discovered_only_foreign_ruleset_witness :
  filter_discovered_only same_members associations_with_stranger
    "discover" "candidate" true
  = Raise KeyError.
Proof.
  apply (filter_discovered_only_foreign_ruleset same_members
           associations_with_stranger "discover" "candidate" true
           (association_of "user_Asn_Image" "user" ["exp1"])).
  - apply list_elem_of_further, list_elem_of_here.
  - discriminate.
  - discriminate.
Defined.

(** ** Sequence numbers *)

Lemma getattr_sequence_lookup {Counter : Type} (classes : gmap string Counter)
    mro owner counter :
  getattr_sequence classes mro = Some (owner, counter) ->
  classes !! owner = Some counter.
Proof.
  induction mro as [|cls bases IH]; cbn [getattr_sequence]; [discriminate|].
  destruct (classes !! cls) as [c|] eqn:E; [|exact IH].
  intros H. inversion H. subst. exact E.
Qed.

Lemma getattr_sequence_found {Counter : Type} (classes : gmap string Counter)
    mro cls :
  cls ∈ mro -> is_Some (classes !! cls) ->
  is_Some (getattr_sequence classes mro).
Proof.
  intros Hin Hcls. induction mro as [|k bases IH]; [inversion Hin|].
  cbn [getattr_sequence]. destruct (classes !! k) as [c|] eqn:E; [eauto|].
  apply IH. apply elem_of_cons in Hin. destruct Hin as [->|Hin]; [|exact Hin].
  rewrite E in Hcls. destruct Hcls as [? ?]. discriminate.
Qed.

(** The class that holds the counter depends on which classes bind the
    attribute, not on the counters. *)
Lemma getattr_sequence_owner {Counter : Type} (classes classes' : gmap string Counter)
    mro :
  (forall k, is_Some (classes !! k) <-> is_Some (classes' !! k)) ->
  fst <$> getattr_sequence classes mro = fst <$> getattr_sequence classes' mro.
Proof.
  intros Hdom. induction mro as [|cls bases IH]; [reflexivity|].
  cbn [getattr_sequence]. pose proof (Hdom cls) as Hk.
  destruct (classes !! cls) as [c|], (classes' !! cls) as [c'|]; cbn.
  - reflexivity.
  - destruct (proj1 Hk) as [? ?]; [eauto|discriminate].
  - destruct (proj2 Hk) as [? ?]; [eauto|discriminate].
  - exact IH.
Qed.

Lemma bound_after_next {Counter : Type} (classes : gmap string Counter)
    owner counter counter' k :
  classes !! owner = Some counter ->
  is_Some (classes !! k) <-> is_Some (<[owner := counter']> classes !! k).
Proof.
  intros Ho. destruct (decide (owner = k)) as [<-|Hne].
  - rewrite lookup_insert_eq, Ho. split; eauto.
  - rewrite lookup_insert_ne by exact Hne. reflexivity.
Qed.

(** What a call of [create] does to the counters. *)
Lemma create_matched {Counter : Type} `{!CounterOps Counter} (ProcessList : Type)
    (mro : string -> list string)
    (super_create :
       string -> Item -> option string -> option Association * list ProcessList)
    cls item version_id (classes : gmap string Counter) asn reprocess holder counter :
  super_create cls item version_id = (Some asn, reprocess) ->
  getattr_sequence classes (mro (rule asn)) = Some (holder, counter) ->
  create ProcessList mro super_create cls item version_id classes
  = Return ((Some (set_sequence asn (upcoming counter)), reprocess),
            <[holder := (next counter).2]> classes).
Proof.
  intros Hsuper Hget. unfold create, upcoming. rewrite Hsuper, Hget.
  destruct (next counter) as [n counter']. reflexivity.
Qed.

Section SequenceProperties.

Context {Counter : Type} `{!CounterOps Counter}.
Variable ProcessList : Type.
Variable mro : string -> list string.
Variable super_create :
  string -> Item -> option string -> option Association * list ProcessList.

(** Every rule class derives from the mixin. *)
Hypothesis mro_mixin : forall cls, DMSBaseMixin ∈ mro cls.

(** The numbers of a counter increase. *)
Hypothesis increasing : monotonically_assigned Counter.

Abbreviation run_calls := (run ProcessList mro super_create).
Abbreviation owner := (counter_owner mro).

(** The numbers handed out between two resets: they are at least the
    number the counter of the class was at, and later associations that
    use the same counter get larger numbers. *)
Lemma run_creates calls : forall classes : gmap string Counter,
  forallb is_create calls = true ->
  is_Some (classes !! DMSBaseMixin) ->
  exists created classes',
    run_calls calls classes = Return (created, classes')
    /\ (forall k, is_Some (classes !! k) <-> is_Some (classes' !! k))
    /\ (forall k c, classes !! k = Some c ->
          exists c', classes' !! k = Some c' /\ (upcoming c <= upcoming c')%Z)
    /\ (forall a, a ∈ created ->
          exists o c n, getattr_sequence classes (mro (rule a)) = Some (o, c)
                        /\ sequence a = Some n /\ (upcoming c <= n)%Z)
    /\ (forall i j a b na nb,
          (i < j)%nat -> created !! i = Some a -> created !! j = Some b ->
          owner classes (rule a) = owner classes (rule b) ->
          sequence a = Some na -> sequence b = Some nb -> (na < nb)%Z).
Proof.
  induction calls as [|c rest IH]; intros classes Hcreates Hmixin.
  - exists [], classes. cbn [run]. split; [reflexivity|].
    split; [tauto|]. split; [eauto with lia|]. split.
    + intros a Ha. inversion Ha.
    + intros i j a b na nb _ Ha. rewrite lookup_nil in Ha. discriminate.
  - destruct c as [cls item version_id|cls]; [|discriminate].
    cbn [forallb is_create andb] in Hcreates.
    cbn [run].
    destruct (super_create cls item version_id) as [[asn0|] reprocess] eqn:Hsuper.
    + (* an association is created *)
      destruct (getattr_sequence_found classes (mro (rule asn0)) DMSBaseMixin
                  (mro_mixin _) Hmixin) as [[o cnt] Hget].
      rewrite (create_matched _ _ _ _ _ _ _ _ _ _ _ Hsuper Hget). cbn [bind].
      pose proof (getattr_sequence_lookup _ _ _ _ Hget) as Ho.
      pose proof (increasing cnt) as Hstep.
      set (cnt' := (next cnt).2) in *.
      set (classes1 := <[o := cnt']> classes).
      assert (Hdom1 : forall k, is_Some (classes !! k) <-> is_Some (classes1 !! k)).
      { intros k. apply bound_after_next with cnt. exact Ho. }
      destruct (IH classes1 Hcreates (proj1 (Hdom1 _) Hmixin))
        as (created & classes' & Hrun & Hdom & Hmono & Hnum & Hsorted).
      rewrite Hrun. cbn [bind].
      exists (set_sequence asn0 (upcoming cnt) :: created), classes'.
      split; [reflexivity|]. split; [|split; [|split]].
      * intros k. rewrite Hdom1. apply Hdom.
      * intros k c Hk. destruct (decide (o = k)) as [<-|Hne].
        -- destruct (Hmono o cnt') as (c' & Hc' & Hle).
           { unfold classes1. apply lookup_insert_eq. }
           exists c'. split; [exact Hc'|]. rewrite Ho in Hk. inversion Hk. subst c.
           lia.
        -- apply Hmono. unfold classes1. rewrite lookup_insert_ne by exact Hne. exact Hk.
      * intros a Ha. apply elem_of_cons in Ha. destruct Ha as [->|Ha].
        -- exists o, cnt, (upcoming cnt). cbn. split; [exact Hget|]. split; [reflexivity|lia].
        -- destruct (Hnum a Ha) as (oa & ca & n & Hga & Hsa & Hle).
           pose proof (getattr_sequence_owner classes classes1 (mro (rule a)) Hdom1) as Hown.
           rewrite Hga in Hown.
           destruct (getattr_sequence classes (mro (rule a))) as [[oa0 ca0]|] eqn:Hga0;
             [|discriminate].
           cbn in Hown. inversion Hown. subst oa0.
           exists oa, ca0, n. split; [reflexivity|]. split; [exact Hsa|].
           pose proof (getattr_sequence_lookup _ _ _ _ Hga0) as Hl0.
           pose proof (getattr_sequence_lookup _ _ _ _ Hga) as Hl1.
           unfold classes1 in Hl1.
           destruct (decide (o = oa)) as [<-|Hne].
           ++ rewrite lookup_insert_eq in Hl1. inversion Hl1. subst ca.
              rewrite Ho in Hl0. inversion Hl0. subst ca0. lia.
           ++ rewrite lookup_insert_ne in Hl1 by exact Hne.
              rewrite Hl0 in Hl1. inversion Hl1. subst ca0. exact Hle.
      * intros i j a b na nb Hij Hi Hj Hsame Hsa Hsb.
        destruct j as [|j]; [lia|]. cbn in Hj.
        assert (Hsame1 : forall x y, owner classes (rule x) = owner classes (rule y) ->
                  owner classes1 (rule x) = owner classes1 (rule y)).
        { intros x y. unfold counter_owner.
          rewrite <- !(getattr_sequence_owner classes classes1 _ Hdom1). auto. }
        destruct i as [|i].
        -- cbn in Hi. inversion Hi. subst a. cbn in Hsa. inversion Hsa. subst na.
           cbn [rule set_sequence] in Hsame.
           destruct (Hnum b) as (ob & cb & n & Hgb & Hsb' & Hle).
           { apply list_elem_of_lookup. eauto. }
           rewrite Hsb in Hsb'. inversion Hsb'. subst n.
           pose proof (getattr_sequence_owner classes classes1 (mro (rule b)) Hdom1) as Hown.
           unfold counter_owner in Hsame. rewrite <- Hsame, Hget, Hgb in Hown.
           cbn in Hown. inversion Hown. subst ob.
           pose proof (getattr_sequence_lookup _ _ _ _ Hgb) as Hl1.
           unfold classes1 in Hl1. rewrite lookup_insert_eq in Hl1.
           inversion Hl1. subst cb. lia.
        -- cbn in Hi. apply (Hsorted i j a b na nb); auto. lia.
    + (* the item does not match *)
      destruct (IH classes Hcreates Hmixin)
        as (created & classes' & Hrun & Hrest).
      unfold create. rewrite Hsuper. cbn [bind]. rewrite Hrun. cbn [bind].
      exists created, classes'.
      split; [reflexivity|exact Hrest].
Qed.

End SequenceProperties.

Lemma getattr_sequence_mixin_only {Counter : Type} (counter : Counter) mro :
  DMSBaseMixin ∈ mro ->
  getattr_sequence {[ DMSBaseMixin := counter ]} mro = Some (DMSBaseMixin, counter).
Proof.
  induction mro as [|cls bases IH]; intros Hin.
  - inversion Hin.
  - cbn [getattr_sequence]. destruct (decide (cls = DMSBaseMixin)) as [->|Hne].
    + rewrite lookup_singleton_eq. reflexivity.
    + rewrite lookup_singleton_ne by congruence. apply IH.
      apply elem_of_cons in Hin. destruct Hin as [Hin|Hin]; [congruence|exact Hin].
Qed.

Lemma getattr_sequence_at_import {Counter : Type} `{!CounterOps Counter} mro :
  DMSBaseMixin ∈ mro ->
  getattr_sequence (classes_at_import (Counter:=Counter)) mro
  = Some (DMSBaseMixin, Counter_start 1).
Proof. apply getattr_sequence_mixin_only. Qed.

(** Two creations from the state at import draw the first two numbers of
    the one counter of the mixin, whichever rule classes make them. *)
Lemma created_by_two {Counter : Type} `{!CounterOps Counter} (cls1 cls2 : string) :
  created_by (Counter:=Counter) level3_mro create_with_program
    [ Create cls1 program_item None; Create cls2 program_item None ]
  = [ set_sequence (make_association cls1 "candidate" ∅ _DEGRADED_STATUS_OK None)
        (upcoming (Counter_start 1));
      set_sequence (make_association cls2 "candidate" ∅ _DEGRADED_STATUS_OK None)
        (upcoming (next (Counter_start 1)).2) ].
Proof.
  assert (Hmro : forall cls, DMSBaseMixin ∈ level3_mro cls).
  { intros cls. unfold level3_mro. do 2 apply list_elem_of_further.
    apply list_elem_of_here. }
  unfold created_by. cbn [run].
  rewrite (create_matched unit level3_mro create_with_program cls1 program_item None
             classes_at_import
             (make_association cls1 "candidate" ∅ _DEGRADED_STATUS_OK None) []
             DMSBaseMixin (Counter_start 1));
    [|reflexivity|apply getattr_sequence_at_import, Hmro].
  cbn [bind].
  assert (Hnext : <[DMSBaseMixin := (next (Counter_start 1)).2]>
                    (classes_at_import (Counter:=Counter))
                  = {[ DMSBaseMixin := (next (Counter_start 1)).2 ]}).
  { unfold classes_at_import. apply insert_singleton_eq. }
  rewrite Hnext.
  rewrite (create_matched unit level3_mro create_with_program cls2 program_item None
             {[ DMSBaseMixin := (next (Counter_start 1)).2 ]}
             (make_association cls2 "candidate" ∅ _DEGRADED_STATUS_OK None) []
             DMSBaseMixin (next (Counter_start 1)).2);
    [|reflexivity|].
  - reflexivity.
  - apply getattr_sequence_mixin_only, Hmro.
Qed.

(** No counter makes the numbers of every rule class start at 1 and
    increase: an image rule and a spectral rule that were not reset draw
    from the one counter of the mixin, which gives the spectral rule the
    number it would give a second association of the image rule. *)
Lemma rule_classes_cannot_all_start_at_one :
  ~ exists (Counter : Type) (ops : CounterOps Counter),
      numbers_start_at_one Counter.
Proof.
  intros (Counter & ops & Hclaim).
  destruct (Hclaim two_rule_history eq_refl) as [Hstart _].
  destruct (Hclaim one_rule_history eq_refl) as [_ Hincr].
  unfold two_rule_history in Hstart. unfold one_rule_history in Hincr.
  rewrite created_by_two in Hstart, Hincr.
  set (n1 := upcoming (Counter_start 1)) in *.
  set (n2 := upcoming (next (Counter_start 1)).2) in *.
  clearbody n1 n2.
  assert (H1 : n1 = 1%Z).
  { specialize (Hstart (set_sequence
                          (make_association "Asn_Image" "candidate" ∅
                             _DEGRADED_STATUS_OK None) n1)
                       (list_elem_of_here _ _)).
    cbv in Hstart. congruence. }
  assert (H2 : n2 = 1%Z).
  { specialize (Hstart (set_sequence
                          (make_association "Asn_Spectrum" "candidate" ∅
                             _DEGRADED_STATUS_OK None) n2)
                       (list_elem_of_further _ _ _ (list_elem_of_here _ _))).
    cbv in Hstart. congruence. }
  specialize (Hincr 0%nat 1%nat _ _ n1 n2 ltac:(lia) eq_refl eq_refl eq_refl
                eq_refl eq_refl).
  lia.
Qed.

(** C8, amended: every association that [create] returns is assigned the
    next number of the counter that its rule class resolves [_sequence]
    to, and an item that does not match changes no counter.  With a
    counter whose numbers are monotonically assigned, between
    [reset_sequence] calls the numbers given to associations whose
    classes use the same counter, hence those of one rule class, are
    strictly increasing and so unique, and no counter goes back.  The
    numbering starts with the first number that a counter made by
    [Counter(start=1)] hands out, at import and again for a rule class
    after [reset_sequence] on that class. *)
Theorem sequence_numbers_increase
    (Counter : Type) (ops : CounterOps Counter)
    (ProcessList : Type) (mro : string -> list string)
    (super_create :
       string -> Item -> option string -> option Association * list ProcessList) :
  (forall cls, DMSBaseMixin ∈ mro cls) ->
  monotonically_assigned Counter ->
  (forall cls item version_id (classes : gmap string Counter),
     is_Some (classes !! DMSBaseMixin) ->
     match super_create cls item version_id with
     | (Some asn, reprocess) =>
         exists holder counter,
           getattr_sequence classes (mro (rule asn)) = Some (holder, counter)
           /\ create ProcessList mro super_create cls item version_id classes
              = Return ((Some (set_sequence asn (upcoming counter)), reprocess),
                        <[holder := (next counter).2]> classes)
     | (None, reprocess) =>
         create ProcessList mro super_create cls item version_id classes
         = Return ((None, reprocess), classes)
     end)
  /\ (forall calls (classes : gmap string Counter),
        forallb is_create calls = true ->
        is_Some (classes !! DMSBaseMixin) ->
        exists created classes',
          run ProcessList mro super_create calls classes = Return (created, classes')
          /\ (forall a, a ∈ created -> is_Some (sequence a))
          /\ (forall i j a b na nb,
                (i < j)%nat -> created !! i = Some a -> created !! j = Some b ->
                counter_owner mro classes (rule a) = counter_owner mro classes (rule b) ->
                sequence a = Some na -> sequence b = Some nb -> (na < nb)%Z)
          /\ (forall k c, classes !! k = Some c ->
                exists c', classes' !! k = Some c' /\ (upcoming c <= upcoming c')%Z))
  /\ (forall cls item version_id asn reprocess,
        super_create cls item version_id = (Some asn, reprocess) ->
        exists classes' : gmap string Counter,
          create ProcessList mro super_create cls item version_id classes_at_import
          = Return ((Some (set_sequence asn (upcoming (Counter_start 1))), reprocess),
                    classes'))
  /\ (forall cls item version_id (classes : gmap string Counter) asn reprocess,
        super_create cls item version_id = (Some asn, reprocess) ->
        head (mro (rule asn)) = Some (rule asn) ->
        exists classes' : gmap string Counter,
          create ProcessList mro super_create cls item version_id
            (reset_sequence (rule asn) classes)
          = Return ((Some (set_sequence asn (upcoming (Counter_start 1))), reprocess),
                    classes')).
Proof.
  intros Hmro Hincr. split; [|split; [|split]].
  - intros cls item version_id classes Hmixin.
    destruct (super_create cls item version_id) as [[asn|] reprocess] eqn:Hsuper.
    + destruct (getattr_sequence_found classes (mro (rule asn)) DMSBaseMixin
                  (Hmro _) Hmixin) as [[holder counter] Hget].
      exists holder, counter. split; [exact Hget|].
      apply create_matched; assumption.
    + unfold create. rewrite Hsuper. reflexivity.
  - intros calls classes Hcreates Hmixin.
    destruct (run_creates ProcessList mro super_create Hmro Hincr calls classes
                Hcreates Hmixin)
      as (created & classes' & Hrun & _ & Hmono & Hnum & Hsorted).
    exists created, classes'. split; [exact Hrun|]. split; [|split].
    + intros a Ha. destruct (Hnum a Ha) as (_ & _ & n & _ & Hn & _). eauto.
    + exact Hsorted.
    + exact Hmono.
  - intros cls item version_id asn reprocess Hsuper. eexists.
    apply create_matched; [exact Hsuper|].
    apply getattr_sequence_at_import, Hmro.
  - intros cls item version_id classes asn reprocess Hsuper Hhead. eexists.
    apply create_matched; [exact Hsuper|].
    destruct (mro (rule asn)) as [|k bases]; [discriminate|].
    cbn in Hhead. inversion Hhead. subst k.
    cbn [getattr_sequence]. unfold reset_sequence. rewrite lookup_insert_eq.
    reflexivity.
Qed.

Lemma sequence_numbers_increase_witness :
  exists created (classes' : gmap string Z),
    run unit level3_mro create_with_program
      [ Create "Asn_Image" program_item None;
        Create "Asn_Image" ∅ None;
        Create "Asn_Image" program_item None ] classes_at_import
    = Return (created, classes')
    /\ (forall a, a ∈ created -> is_Some (sequence a))
    /\ (forall i j a b na nb,
          (i < j)%nat -> created !! i = Some a -> created !! j = Some b ->
          counter_owner level3_mro (classes_at_import (Counter:=Z)) (rule a)
          = counter_owner level3_mro (classes_at_import (Counter:=Z)) (rule b) ->
          sequence a = Some na -> sequence b = Some nb -> (na < nb)%Z)
    /\ (forall k c, classes_at_import (Counter:=Z) !! k = Some c ->
          exists c', classes' !! k = Some c' /\ (upcoming c <= upcoming c')%Z).
Proof.
  destruct (sequence_numbers_increase Z stepping_counter unit level3_mro
              create_with_program)
    as (_ & Hrun & _).
  - intros cls. unfold level3_mro. do 2 apply list_elem_of_further.
    apply list_elem_of_here.
  - intros counter. unfold upcoming. cbn. lia.
  - apply Hrun.
    + reflexivity.
    + exists (Counter_start 1). reflexivity.
Defined.

(** * Further properties *)

(** ** Time-series observations of science pointings *)

Lemma is_tso_constraint_value_true self :
  is_tso_constraint_value self = Return true <-> constraint_is_tso self.
Proof.
  unfold constraint_is_tso, is_tso_constraint_value, getitem.
  destruct (constraints self !! "is_tso") as [c|]; cbn [bind].
  - destruct (value c) as [v|] eqn:Ev.
    + split.
      * intros H. inversion H as [Hb]. apply bool_decide_eq_true in Hb.
        subst v. eauto.
      * intros (c' & Hc & Hv). inversion Hc. subst c'.
        rewrite Ev in Hv. inversion Hv. subst v.
        rewrite bool_decide_eq_true_2; reflexivity.
    + split; [discriminate|]. intros (c' & Hc & Hv). inversion Hc. subst c'.
      congruence.
  - split; [discriminate|]. intros (c' & Hc & _). discriminate.
Qed.

(** The three indicators as the function combines them. *)
Lemma is_item_tso_science_value self item other_exp_types :
  item !! "pntgtype" = Some (PyStr "science") ->
  is_item_tso self item other_exp_types
  = Return
      (match is_tso_constraint_value self with Return b => b | Raise _ => false end
       || match item_getattr self item ["tsovisit"] with
          | Return (_, v) => bool_decide (v = PyStr "t")
          | Raise _ => false
          end
       || match item_getattr self item ["exp_type"] with
          | Return (_, v) => py_in v (PyStr <$> tso_exp_types other_exp_types)
          | Raise _ => false
          end).
Proof.
  intros Hp. unfold is_item_tso, getitem. rewrite Hp. cbn [bind].
  rewrite bool_decide_eq_true_2 by reflexivity. cbn [negb].
  assert (Hall : match other_exp_types with
                 | Some (t :: ts) => TSO_EXP_TYPES ++ t :: ts
                 | _ => TSO_EXP_TYPES
                 end = tso_exp_types other_exp_types).
  { unfold tso_exp_types. destruct other_exp_types as [[|t ts]|]; cbn [default];
      rewrite ?app_nil_r; reflexivity. }
  rewrite Hall. clear Hall.
  destruct (is_tso_constraint_value self) as [b0|e] eqn:E.
  2: destruct (is_tso_constraint_value_raises _ _ E); subst e.
  all: cbn [bind except_KeyError orb].
  all: try (destruct b0; cbn [bind except_KeyError orb]; [reflexivity|]).
  all: destruct (item_getattr self item ["tsovisit"]) as [[a1 v1]|e1] eqn:H1;
       [|apply item_getattr_raises in H1 as ->];
       cbn [bind except_KeyError orb].
  all: try (destruct (bool_decide (v1 = PyStr "t"));
            cbn [bind except_KeyError orb]; [reflexivity|]).
  all: destruct (item_getattr self item ["exp_type"]) as [[a2 v2]|e2] eqn:H2;
       [|apply item_getattr_raises in H2 as ->];
       cbn [bind except_KeyError orb]; reflexivity.
Qed.

(** X1: for a science pointing, [is_item_tso] returns a boolean, and it is
    true exactly when the [is_tso] constraint has the value ["t"], or
    [tsovisit] resolves to ["t"], or [exp_type] resolves to one of the
    time-series exposure types or of the additional exposure types. *)
Theorem is_item_tso_science (self : Association) (item : Item)
    (other_exp_types : option (list string)) :
  item !! "pntgtype" = Some (PyStr "science") ->
  exists b,
    is_item_tso self item other_exp_types = Return b
    /\ (b = true <->
        constraint_is_tso self
        \/ resolves_to self item "tsovisit" (PyStr "t")
        \/ exists exp_type,
             resolves_to self item "exp_type" (PyStr exp_type)
             /\ exp_type ∈ tso_exp_types other_exp_types).
Proof.
  intros Hp. eexists. split; [apply is_item_tso_science_value, Hp|].
  rewrite !orb_true_iff, <- is_tso_constraint_value_true.
  unfold resolves_to.
  assert (H0 : match is_tso_constraint_value self with
               | Return b => b | Raise _ => false end = true
               <-> is_tso_constraint_value self = Return true).
  { destruct (is_tso_constraint_value self) as [[|]|e]; split; congruence. }
  assert (H1 : match item_getattr self item ["tsovisit"] with
               | Return (_, v) => bool_decide (v = PyStr "t")
               | Raise _ => false end = true
               <-> exists a, item_getattr self item ["tsovisit"] = Return (a, PyStr "t")).
  { destruct (item_getattr self item ["tsovisit"]) as [[a v]|e].
    - rewrite bool_decide_eq_true. split.
      + intros ->. eauto.
      + intros (a' & Ha). congruence.
    - split; [discriminate|]. intros (a' & Ha). discriminate. }
  assert (H2 : match item_getattr self item ["exp_type"] with
               | Return (_, v) => py_in v (PyStr <$> tso_exp_types other_exp_types)
               | Raise _ => false end = true
               <-> exists exp_type,
                     (exists a, item_getattr self item ["exp_type"]
                                = Return (a, PyStr exp_type))
                     /\ exp_type ∈ tso_exp_types other_exp_types).
  { destruct (item_getattr self item ["exp_type"]) as [[a v]|e].
    - unfold py_in. rewrite bool_decide_eq_true, list_elem_of_fmap. split.
      + intros (s & -> & Hs). eauto.
      + intros (s & (a' & Ha) & Hs). inversion Ha. subst. eauto.
    - split; [discriminate|]. intros (s & (a' & Ha) & _). discriminate. }
  rewrite H0, H1, H2. tauto.
Qed.

Lemma is_item_tso_science_witness :
  exists b,
    is_item_tso (make_association "Asn_Image" "candidate" ∅ "" None)
      coronagraphic_item (Some ["mir_lyot"; "mir_4qpm"; "nrc_coron"]) = Return b
    /\ (b = true <->
        constraint_is_tso (make_association "Asn_Image" "candidate" ∅ "" None)
        \/ resolves_to (make_association "Asn_Image" "candidate" ∅ "" None)
             coronagraphic_item "tsovisit" (PyStr "t")
        \/ exists exp_type,
             resolves_to (make_association "Asn_Image" "candidate" ∅ "" None)
               coronagraphic_item "exp_type" (PyStr exp_type)
             /\ exp_type ∈ tso_exp_types (Some ["mir_lyot"; "mir_4qpm"; "nrc_coron"])).
Proof.
  apply (is_item_tso_science (make_association "Asn_Image" "candidate" ∅ "" None)
           coronagraphic_item (Some ["mir_lyot"; "mir_4qpm"; "nrc_coron"])).
  reflexivity.
Defined.

(** ** The range of the exposure types *)

(** Membership in a list that is written out. *)
Ltac in_list :=
  solve [repeat first [apply list_elem_of_here | apply list_elem_of_further]].

Lemma EXPTYPE_MAP_values s t :
  EXPTYPE_MAP !! s = Some t ->
  t ∈ ["dark"; "flat"; "target_acquisition"; "engineering"; "autoflat"; "autowave"].
Proof.
  unfold EXPTYPE_MAP. intros H. apply elem_of_list_to_map_2 in H.
  repeat (apply elem_of_cons in H as [H|H];
          [inversion H; subst; in_list|]).
  inversion H.
Qed.

Lemma EXPTYPE_MAP_acquisition s :
  EXPTYPE_MAP !! s = Some "target_acquisition" <-> s ∈ ACQ_EXP_TYPES.
Proof.
  split.
  - unfold EXPTYPE_MAP. intros H. apply elem_of_list_to_map_2 in H.
    repeat (apply elem_of_cons in H as [H|H];
            [inversion H; subst; try discriminate; unfold ACQ_EXP_TYPES; in_list|]).
    inversion H.
  - unfold ACQ_EXP_TYPES. intros H.
    repeat (apply elem_of_cons in H as [->|H]; [vm_compute; reflexivity|]).
    inversion H.
Qed.

Lemma special_loop_science self item r :
  special_loop self item SPECIAL_EXPTYPES "science" = Return r ->
  r ∈ ["psf"; "imprint"; "background"; "science"].
Proof.
  unfold SPECIAL_EXPTYPES. cbn [special_loop].
  repeat match goal with
  | |- context [item_getattr ?s ?i ?l] =>
      let Hg := fresh "Hg" in
      destruct (item_getattr s i l) as [[? ?]|?] eqn:Hg;
      [|apply item_getattr_raises in Hg; subst]
  end; intros H; inversion H; subst; in_list.
Qed.

(** X2: without a default ([default=None]) the special modifiers are
    never consulted: an exposure type that the table lists gives its
    entry, whatever [is_psf], [is_imprt] and [bkgdtarg] say, and every
    other item raises [LookupError]. *)
Theorem get_exposure_type_no_default (self : Association) (item : Item) :
  get_exposure_type self item None
  = match item !! "exp_type" with
    | Some (PyStr exp_type) =>
        match EXPTYPE_MAP !! exp_type with
        | Some t => Return t
        | None => Raise LookupError
        end
    | _ => Raise LookupError
    end.
Proof.
  unfold get_exposure_type, exptype_get.
  destruct (item !! "exp_type") as [[|s]|]; try reflexivity.
  destruct (EXPTYPE_MAP !! s) as [t|] eqn:Et; [|reflexivity].
  apply EXPTYPE_MAP_values in Et.
  repeat (apply elem_of_cons in Et as [->|Et]; [reflexivity|]).
  inversion Et.
Qed.

(** X3: with the default ["science"], every exposure type that
    [get_exposure_type] returns is one of the ten association exposure
    types. *)
Theorem get_exposure_type_range (self : Association) (item : Item) (r : string) :
  get_exposure_type self item (Some "science") = Return r ->
  r ∈ association_exptypes.
Proof.
  unfold get_exposure_type, exptype_get.
  destruct (item !! "exp_type") as [[|s]|]; [| |discriminate].
  - rewrite String.eqb_refl. intros H. apply special_loop_science in H.
    unfold association_exptypes.
    repeat (apply elem_of_cons in H as [->|H]; [in_list|]). inversion H.
  - destruct (EXPTYPE_MAP !! s) as [t|] eqn:Et.
    + apply EXPTYPE_MAP_values in Et.
      assert (Hne : String.eqb t "science" = false).
      { clear -Et. repeat (apply elem_of_cons in Et as [->|Et]; [reflexivity|]).
        inversion Et. }
      rewrite Hne. intros H. inversion H. subst r.
      unfold association_exptypes.
      repeat (apply elem_of_cons in Et as [->|Et]; [in_list|]). inversion Et.
    + rewrite String.eqb_refl. intros H. apply special_loop_science in H.
      unfold association_exptypes.
      repeat (apply elem_of_cons in H as [->|H]; [in_list|]). inversion H.
Qed.

Lemma get_exposure_type_range_witness :
  "imprint" ∈ association_exptypes.
Proof.
  apply (get_exposure_type_range tso_association imprint_item "imprint").
  vm_compute. reflexivity.
Defined.

(** X4: with the default ["science"], an exposure is classified as a
    target acquisition exactly when its exposure type is one of
    [ACQ_EXP_TYPES]. *)
Theorem get_exposure_type_acquisition (self : Association) (item : Item)
    (exp_type : string) :
  item !! "exp_type" = Some (PyStr exp_type) ->
  (get_exposure_type self item (Some "science") = Return "target_acquisition"
   <-> exp_type ∈ ACQ_EXP_TYPES).
Proof.
  intros He. rewrite <- EXPTYPE_MAP_acquisition.
  unfold get_exposure_type, exptype_get. rewrite He.
  destruct (EXPTYPE_MAP !! exp_type) as [t|] eqn:Et.
  - apply EXPTYPE_MAP_values in Et.
    assert (Hne : String.eqb t "science" = false).
    { repeat (apply elem_of_cons in Et as [->|Et]; [reflexivity|]).
      inversion Et. }
    rewrite Hne. split; congruence.
  - rewrite String.eqb_refl. split; [|discriminate].
    intros H. apply special_loop_science in H.
    repeat (apply elem_of_cons in H as [H|H]; [discriminate|]). inversion H.
Qed.

Lemma get_exposure_type_acquisition_witness :
  get_exposure_type tso_association
    {[ "exp_type" := PyStr "nrs_wata"; "is_psf" := PyStr "t" ]} (Some "science")
  = Return "target_acquisition".
Proof.
  apply (get_exposure_type_acquisition tso_association
           {[ "exp_type" := PyStr "nrs_wata"; "is_psf" := PyStr "t" ]} "nrs_wata").
  - reflexivity.
  - unfold ACQ_EXP_TYPES. do 10 apply list_elem_of_further. apply list_elem_of_here.
Defined.

(** ** What a status update changes, and when it raises *)

Lemma set_degraded_status_same self :
  set_degraded_status self (degraded_status self) = self.
Proof. destruct self. reflexivity. Qed.

Lemma products_loop_status ps status :
  (products_loop ps status).1 = status
  \/ (products_loop ps status).1 = _DEGRADED_STATUS_NOTOK.
Proof.
  revert status. induction ps as [|product rest IH]; intros status; [left; reflexivity|].
  cbn [products_loop]. destruct (members product) as [ms|]; [|left; reflexivity].
  rewrite members_loop_spec. destruct (existsb exposerr_set ms).
  - destruct (IH _DEGRADED_STATUS_NOTOK); right; assumption.
  - apply IH.
Qed.

Lemma products_loop_raises ps status :
  ((products_loop ps status).2 = None
   /\ Forall (fun product => is_Some (members product)) ps)
  \/ ((products_loop ps status).2 = Some KeyError
      /\ ~ Forall (fun product => is_Some (members product)) ps).
Proof.
  revert status. induction ps as [|product rest IH]; intros status.
  - left. split; [reflexivity|constructor].
  - cbn [products_loop]. destruct (members product) as [ms|] eqn:Ems.
    + destruct (IH (members_loop ms status)) as [[He Hwf]|[He Hwf]].
      * left. split; [exact He|]. constructor; [rewrite Ems; eauto|exact Hwf].
      * right. split; [exact He|]. intros H. inversion H. contradiction.
    + right. split; [reflexivity|]. intros H. inversion H as [|? ? [ms Hms] _].
      congruence.
Qed.

(** X5: a status update changes nothing but the degraded status, which
    it leaves as it is or sets to NOT_OK.  It raises [KeyError] exactly
    when the status is OK and the association lacks its products or a
    product its members, and it raises nothing else.  A second update
    right after the first changes nothing. *)
Theorem update_degraded_status_effect (self : Association) :
  let after := (update_degraded_status self).1 in
  let raised := (update_degraded_status self).2 in
  after = set_degraded_status self (degraded_status after)
  /\ (degraded_status after = degraded_status self
      \/ degraded_status after = _DEGRADED_STATUS_NOTOK)
  /\ (raised = None \/ raised = Some KeyError)
  /\ (raised = Some KeyError
      <-> degraded_status self = _DEGRADED_STATUS_OK /\ ~ has_products self)
  /\ (update_degraded_status after).1 = after.
Proof.
  cbn zeta.
  destruct (String.eqb_spec (degraded_status self) _DEGRADED_STATUS_OK) as [Hok|Hne].
  2: { assert (Hsame : update_degraded_status self = (self, None)).
       { unfold update_degraded_status.
         rewrite (proj2 (String.eqb_neq _ _) Hne). reflexivity. }
       rewrite Hsame. cbn [fst snd]. rewrite Hsame. cbn [fst].
       split; [symmetry; apply set_degraded_status_same|].
       split; [left; reflexivity|]. split; [left; reflexivity|].
       split; [|reflexivity].
       split; [discriminate|]. intros [Hok _]. contradiction. }
  destruct (products self) as [ps|] eqn:Eps.
  2: { assert (Hsame : update_degraded_status self = (self, Some KeyError)).
       { unfold update_degraded_status.
         rewrite Hok, String.eqb_refl, Eps. reflexivity. }
       rewrite Hsame. cbn [fst snd]. rewrite Hsame. cbn [fst].
       split; [symmetry; apply set_degraded_status_same|].
       split; [left; reflexivity|]. split; [right; reflexivity|].
       split; [|reflexivity].
       split; [|reflexivity]. intros _. split; [exact Hok|].
       intros (ps & Hps & _). congruence. }
  pose proof (products_loop_status ps _DEGRADED_STATUS_OK) as Hst.
  pose proof (products_loop_raises ps _DEGRADED_STATUS_OK) as Hr.
  destruct (products_loop ps _DEGRADED_STATUS_OK) as [status e] eqn:El.
  cbn [fst snd] in Hst, Hr.
  assert (Hupd : update_degraded_status self = (set_degraded_status self status, e)).
  { unfold update_degraded_status.
    rewrite Hok, String.eqb_refl, Eps, El. reflexivity. }
  rewrite Hupd. cbn [fst snd degraded_status set_degraded_status].
  unfold has_products.
  split; [reflexivity|]. split; [rewrite Hok; exact Hst|].
  split; [destruct Hr as [[-> _]|[-> _]]; auto|].
  split.
  - split.
    + intros ->. split; [exact Hok|]. intros (ps' & Hps & Hwf).
      rewrite Eps in Hps. inversion Hps. subst ps'.
      destruct Hr as [[He _]|[_ Hn]]; [discriminate|contradiction].
    + intros [_ Hn]. destruct Hr as [[_ Hwf]|[He _]]; [|exact He].
      exfalso. apply Hn. eauto.
  - unfold update_degraded_status.
    cbn [degraded_status set_degraded_status products].
    destruct Hst as [Hst|Hst]; subst status.
    + rewrite String.eqb_refl, Eps, El. reflexivity.
    + reflexivity.
Qed.

(** ** What the filter accepts and what it can return *)

Lemma from_rulesets_or_stranger discover_ruleset candidate_ruleset associations :
  from_rulesets discover_ruleset candidate_ruleset associations
  \/ exists asn, asn ∈ associations
                 /\ ~ from_ruleset discover_ruleset candidate_ruleset asn.
Proof.
  unfold from_rulesets. induction associations as [|a rest IH].
  - left. constructor.
  - destruct (decide (registry_name a = discover_ruleset
                      \/ registry_name a = candidate_ruleset)) as [Ha|Ha].
    + destruct IH as [IH|(asn & Hin & Hn)].
      * left. constructor; assumption.
      * right. exists asn. split; [apply list_elem_of_further, Hin|exact Hn].
    + right. exists a. split; [apply list_elem_of_here|exact Ha].
Qed.

(** X6: the filter returns a list exactly for the inputs whose
    associations all come from the two named rulesets, and raises
    [KeyError] for every other input. *)
Theorem filter_discovered_only_raises
    (asn_eq : Association -> Association -> bool)
    (associations : list Association)
    (discover_ruleset candidate_ruleset : string) (keep_candidates : bool) :
  ((exists filtered,
      filter_discovered_only asn_eq associations
        discover_ruleset candidate_ruleset keep_candidates = Return filtered)
   <-> from_rulesets discover_ruleset candidate_ruleset associations)
  /\ (filter_discovered_only asn_eq associations
        discover_ruleset candidate_ruleset keep_candidates = Raise KeyError
      <-> ~ from_rulesets discover_ruleset candidate_ruleset associations).
Proof.
  destruct (from_rulesets_or_stranger discover_ruleset candidate_ruleset associations)
    as [Hall|(asn & Hin & Hforeign)].
  - rewrite (filter_discovered_only_returns asn_eq _ _ _ keep_candidates Hall).
    split; split; eauto; [discriminate|contradiction].
  - assert (Hraise : filter_discovered_only asn_eq associations
                       discover_ruleset candidate_ruleset keep_candidates
                     = Raise KeyError).
    { unfold filter_discovered_only.
      rewrite (partition_loop_foreign discover_ruleset candidate_ruleset
                 associations _ asn); [reflexivity| |exact Hin|exact Hforeign].
      intros k [v Hk].
      pose proof (buckets_initial discover_ruleset candidate_ruleset k) as Hb.
      rewrite Hk in Hb. case_bool_decide; [assumption|discriminate]. }
    assert (Hnot : ~ from_rulesets discover_ruleset candidate_ruleset associations).
    { intros Hall. apply Hforeign.
      apply (proj1 (Forall_forall _ _) Hall), Hin. }
    rewrite Hraise. split; split; auto.
    + intros (filtered & H). discriminate.
    + contradiction.
Qed.

Lemma list_filter_sublist {A} (f : A -> bool) (l : list A) :
  List.filter f l `sublist_of` l.
Proof.
  induction l as [|x l IH]; [constructor|].
  cbn. destruct (f x); [apply sublist_skip|apply sublist_cons]; exact IH.
Qed.

Lemma of_ruleset_partition discover_ruleset candidate_ruleset associations :
  discover_ruleset <> candidate_ruleset ->
  from_rulesets discover_ruleset candidate_ruleset associations ->
  of_ruleset discover_ruleset associations
  ++ of_ruleset candidate_ruleset associations ≡ₚ associations.
Proof.
  intros Hne Hall. induction Hall as [|asn rest Hasn Hrest IH]; [reflexivity|].
  unfold of_ruleset in *. cbn [List.filter].
  destruct Hasn as [Hd|Hc].
  - rewrite (bool_decide_eq_true_2 _ Hd).
    rewrite bool_decide_eq_false_2 by congruence.
    cbn [app]. rewrite IH. reflexivity.
  - rewrite (bool_decide_eq_true_2 _ Hc).
    rewrite bool_decide_eq_false_2 by congruence.
    rewrite <- Permutation_middle, IH. reflexivity.
Qed.

(** X7: with two different ruleset names the filter only selects: the
    list it returns is contained in the input with multiplicity, so no
    association is made up or returned twice. *)
Theorem filter_discovered_only_selects
    (asn_eq : Association -> Association -> bool)
    (associations filtered : list Association)
    (discover_ruleset candidate_ruleset : string) (keep_candidates : bool) :
  discover_ruleset <> candidate_ruleset ->
  filter_discovered_only asn_eq associations
    discover_ruleset candidate_ruleset keep_candidates = Return filtered ->
  filtered ⊆+ associations.
Proof.
  intros Hne Hret.
  assert (Hall : from_rulesets discover_ruleset candidate_ruleset associations).
  { destruct (from_rulesets_or_stranger discover_ruleset candidate_ruleset
                associations) as [Hall|(asn & Hin & Hforeign)]; [exact Hall|].
    exfalso. unfold filter_discovered_only in Hret.
    rewrite (partition_loop_foreign discover_ruleset candidate_ruleset
               associations _ asn) in Hret; [discriminate| |exact Hin|exact Hforeign].
    intros k [v Hk].
    pose proof (buckets_initial discover_ruleset candidate_ruleset k) as Hb.
    rewrite Hk in Hb. case_bool_decide; [assumption|discriminate]. }
  rewrite (filter_discovered_only_returns asn_eq _ _ _ keep_candidates Hall) in Hret.
  inversion Hret. subst filtered.
  etrans; [|apply Permutation_submseteq,
               (of_ruleset_partition discover_ruleset candidate_ruleset
                  associations Hne Hall)].
  apply sublist_submseteq, sublist_app.
  - apply list_filter_sublist.
  - destruct keep_candidates; [reflexivity|apply sublist_nil_l].
Qed.

Lemma filter_discovered_only_selects_witness :
  [ association_of "discover_Asn_Image" "discover" ["exp1"; "exp2"; "exp3"];
    association_of "candidate_Asn_Image" "candidate" ["exp1"; "exp2"];
    association_of "candidate_Asn_Image" "candidate" ["exp3"] ]
  ⊆+ generated_associations.
Proof.
  apply (filter_discovered_only_selects same_members generated_associations _
           "discover" "candidate" true).
  - discriminate.
  - vm_compute. reflexivity.
Defined.

(** ** The optical-element fragment and the order of the matches *)

(** A list sorted by the lower-case key is determined by its elements
    when no two keys coincide. *)
Lemma sorted_lower_unique l1 : forall l2,
  StronglySorted lower_le l1 -> StronglySorted lower_le l2 ->
  l1 ≡ₚ l2 -> NoDup (lower <$> l1) -> l1 = l2.
Proof.
  induction l1 as [|x l1 IH]; intros l2 Hs1 Hs2 Hperm Hnodup.
  - apply Permutation_nil_l in Hperm. congruence.
  - destruct l2 as [|y l2].
    { apply Permutation_nil_r in Hperm. discriminate. }
    inversion Hs1 as [|? ? Hs1' Hx]; subst.
    inversion Hs2 as [|? ? Hs2' Hy]; subst.
    cbn [fmap list_fmap] in Hnodup. apply NoDup_cons in Hnodup as [Hxn Hnodup].
    assert (Hxy : x = y).
    { destruct (decide (x = y)) as [|Hne]; [assumption|exfalso].
      assert (Hx2 : x ∈ l2).
      { assert (Hin : x ∈ y :: l2) by (rewrite <- Hperm; apply list_elem_of_here).
        apply elem_of_cons in Hin as [|]; [contradiction|assumption]. }
      assert (Hy1 : y ∈ l1).
      { assert (Hin : y ∈ x :: l1) by (rewrite Hperm; apply list_elem_of_here).
        apply elem_of_cons in Hin as [|]; [congruence|assumption]. }
      assert (Hle1 : lower_le x y).
      { apply (proj1 (Forall_forall _ _) Hx), Hy1. }
      assert (Hle2 : lower_le y x).
      { apply (proj1 (Forall_forall _ _) Hy), Hx2. }
      unfold lower_le in *.
      assert (Hkey : lower x = lower y) by (apply (anti_symm String.le); assumption).
      apply Hxn. rewrite Hkey. apply list_elem_of_fmap_2, Hy1. }
    subst y. f_equal. apply IH; try assumption.
    apply (Permutation_cons_inv Hperm).
Qed.

Lemma sort_lower_permutation l1 l2 :
  l1 ≡ₚ l2 -> NoDup (lower <$> l1) -> sort_lower l1 = sort_lower l2.
Proof.
  intros Hperm Hnodup. apply sorted_lower_unique.
  - apply sort_lower_sorted.
  - apply sort_lower_sorted.
  - rewrite !sort_lower_perm. exact Hperm.
  - rewrite sort_lower_perm. exact Hnodup.
Qed.

(** X8: the optical-element fragment does not depend on the order in
    which the values were found, provided that no two values found by one
    constraint differ by letter case only. *)
Theorem get_opt_element_order_independent (self1 self2 : Association) :
  same_found_values self1 self2 "opt_elem" ->
  same_found_values self1 self2 "opt_elem2" ->
  same_found_values self1 self2 "opt_elem3" ->
  _get_opt_element self1 = _get_opt_element self2.
Proof.
  intros H1 H2 H3. unfold _get_opt_element. rewrite !opt_elems_loop_spec.
  cbn [app omap list_omap].
  assert (Heq : forall n, same_found_values self1 self2 n ->
            (fun c => format_list (sort_lower (found_values c)))
              <$> constraints self1 !! n
            = (fun c => format_list (sort_lower (found_values c)))
                <$> constraints self2 !! n).
  { intros n Hn. unfold same_found_values in Hn.
    destruct (constraints self1 !! n) as [c1|], (constraints self2 !! n) as [c2|];
      try contradiction; [|reflexivity].
    destruct Hn as [Hperm Hnodup]. cbn.
    rewrite (sort_lower_permutation _ _ Hperm Hnodup). reflexivity. }
  rewrite (Heq _ H1), (Heq _ H2), (Heq _ H3). reflexivity.
Qed.

Lemma get_opt_element_order_independent_witness :
  _get_opt_element two_filter_association
  = _get_opt_element two_filter_association_reordered.
Proof.
  apply get_opt_element_order_independent.
  - split.
    + apply Permutation_swap.
    + vm_compute. repeat constructor; intros Hin;
        repeat (apply elem_of_cons in Hin as [Hin|Hin]; [discriminate|]);
        inversion Hin.
  - exact I.
  - exact I.
Defined.

(** Two found values that differ by letter case only stay in the order
    in which they were found. *)
Example sort_lower_keeps_order_of_equal_keys :
  sort_lower ["F770W"; "f770w"] = ["F770W"; "f770w"]
  /\ sort_lower ["f770w"; "F770W"] = ["f770w"; "F770W"].
Proof. split; reflexivity. Qed.

(** ** The reach of reset_sequence *)

Lemma getattr_sequence_reset_other {Counter : Type} `{!CounterOps Counter}
    cls (classes : gmap string Counter) mro :
  cls ∉ mro ->
  getattr_sequence (reset_sequence cls classes) mro = getattr_sequence classes mro.
Proof.
  unfold reset_sequence. induction mro as [|k bases IH]; intros Hnot; [reflexivity|].
  apply not_elem_of_cons in Hnot as [Hne Hnot].
  cbn [getattr_sequence]. rewrite lookup_insert_ne by congruence.
  rewrite (IH Hnot). reflexivity.
Qed.

Lemma getattr_sequence_reset_base {Counter : Type} `{!CounterOps Counter}
    cls (classes : gmap string Counter) before after :
  (forall k, k ∈ before -> classes !! k = None) ->
  getattr_sequence (reset_sequence cls classes) (before ++ cls :: after)
  = Some (cls, Counter_start 1).
Proof.
  unfold reset_sequence. induction before as [|k before IH]; intros Hnone.
  - cbn [app getattr_sequence]. rewrite lookup_insert_eq. reflexivity.
  - cbn [app getattr_sequence]. destruct (decide (cls = k)) as [<-|Hne].
    + rewrite lookup_insert_eq. reflexivity.
    + rewrite lookup_insert_ne by exact Hne.
      rewrite (Hnone k) by apply list_elem_of_here.
      apply IH. intros k' Hk'. apply Hnone, list_elem_of_further, Hk'.
Qed.

(** X9: [reset_sequence] on a class binds a new counter in that class
    only.  The next association of a class that does not derive from it
    gets the number it would have got without the reset; the next
    association of a class that derives from it, with no counter bound in
    between, gets the first number that a counter made by
    [Counter(start=1)] hands out. *)
Theorem reset_sequence_reach
    (Counter : Type) (ops : CounterOps Counter)
    (ProcessList : Type) (mro : string -> list string)
    (super_create :
       string -> Item -> option string -> option Association * list ProcessList)
    (reset_cls : string) (classes : gmap string Counter)
    (cls : string) (item : Item) (version_id : option string)
    (asn : Association) (reprocess : list ProcessList) :
  super_create cls item version_id = (Some asn, reprocess) ->
  (reset_cls ∉ mro (rule asn) ->
     created (create ProcessList mro super_create cls item version_id
                (reset_sequence reset_cls classes))
     = created (create ProcessList mro super_create cls item version_id classes))
  /\ (forall before after,
        mro (rule asn) = before ++ reset_cls :: after ->
        (forall k, k ∈ before -> classes !! k = None) ->
        created (create ProcessList mro super_create cls item version_id
                   (reset_sequence reset_cls classes))
        = Return (Some (set_sequence asn (upcoming (Counter_start 1))), reprocess)).
Proof.
  intros Hsuper. split.
  - intros Hnot. unfold create. rewrite Hsuper.
    rewrite (getattr_sequence_reset_other _ _ _ Hnot).
    destruct (getattr_sequence classes (mro (rule asn))) as [[holder counter]|];
      [|reflexivity].
    destruct (next counter) as [n counter']. reflexivity.
  - intros before after Hmro Hnone.
    rewrite (create_matched ProcessList mro super_create cls item version_id
               (reset_sequence reset_cls classes) asn reprocess reset_cls
               (Counter_start 1) Hsuper).
    + reflexivity.
    + rewrite Hmro. apply getattr_sequence_reset_base, Hnone.
Qed.

Lemma reset_sequence_reach_witness :
  created (create unit level3_mro create_with_program "Asn_Image" program_item None
             (reset_sequence "Asn_Spectrum"
                (<[DMSBaseMixin := 7%Z]> (classes_at_import (Counter:=Z)))))
  = created (create unit level3_mro create_with_program "Asn_Image" program_item None
               (<[DMSBaseMixin := 7%Z]> (classes_at_import (Counter:=Z))))
  /\ created (create unit level3_mro create_with_program "Asn_Image" program_item None
                (reset_sequence "DMS_Level3_Base"
                   (<[DMSBaseMixin := 7%Z]> (classes_at_import (Counter:=Z)))))
     = Return (Some (set_sequence
                       (make_association "Asn_Image" "candidate" ∅
                          _DEGRADED_STATUS_OK None)
                       (upcoming (Counter_start (Counter:=Z) 1))), []).
Proof.
  split.
  - destruct (reset_sequence_reach Z stepping_counter unit level3_mro
                create_with_program "Asn_Spectrum"
                (<[DMSBaseMixin := 7%Z]> (classes_at_import (Counter:=Z)))
                "Asn_Image" program_item None
                (make_association "Asn_Image" "candidate" ∅
                   _DEGRADED_STATUS_OK None) [])
      as [Hother _]; [reflexivity|].
    apply Hother.
    cbn. intros Hin.
    repeat (apply elem_of_cons in Hin as [Hin|Hin]; [discriminate|]).
    inversion Hin.
  - destruct (reset_sequence_reach Z stepping_counter unit level3_mro
                create_with_program "DMS_Level3_Base"
                (<[DMSBaseMixin := 7%Z]> (classes_at_import (Counter:=Z)))
                "Asn_Image" program_item None
                (make_association "Asn_Image" "candidate" ∅
                   _DEGRADED_STATUS_OK None) [])
      as [_ Hbase]; [reflexivity|].
    apply (Hbase ["Asn_Image"] [DMSBaseMixin]); [reflexivity|].
    intros k Hk. apply list_elem_of_singleton in Hk. subst k.
    vm_compute. reflexivity.
Defined.

(** ** Products and members *)

Lemma last_snoc_product (ps : list Product) (p : Product) : last (ps ++ [p]) = Some p.
Proof. apply last_snoc. Qed.

Lemma products_loop_new_product ps product_name status :
  (products_loop (ps ++ [{| name := product_name; members := Some [] |}]) status).1
  = (products_loop ps status).1.
Proof.
  revert status. induction ps as [|product rest IH]; intros status; [reflexivity|].
  cbn [app products_loop]. destruct (members product) as [ms|]; [apply IH|reflexivity].
Qed.

(** X10: [new_product] appends a product without members and keeps the
    earlier products.  The new product is the current product, so right
    after it no member is reported as a member, whatever the earlier
    products hold; the members of the association and the degraded status
    that an update computes are what they were. *)
Theorem new_product_current (self : Association) (product_name : string) :
  products (new_product self product_name)
  = Some (default [] (products self)
          ++ [{| name := product_name; members := Some [] |}])
  /\ current_product (new_product self product_name)
     = Returns {| name := product_name; members := Some [] |}
  /\ (forall member_eq new_member,
        is_member member_eq (new_product self product_name) new_member
        = Returns false)
  /\ all_members (new_product self product_name) = all_members self
  /\ degraded_status (update_degraded_status (new_product self product_name)).1
     = degraded_status (update_degraded_status self).1.
Proof.
  assert (Hps : products (new_product self product_name)
                = Some (default [] (products self)
                        ++ [{| name := product_name; members := Some [] |}])).
  { unfold new_product. destruct (products self); reflexivity. }
  assert (Hcur : current_product (new_product self product_name)
                 = Returns {| name := product_name; members := Some [] |}).
  { unfold current_product. rewrite Hps, last_snoc_product. reflexivity. }
  split; [exact Hps|]. split; [exact Hcur|]. split; [|split].
  - intros member_eq new_member. unfold is_member. rewrite Hcur. reflexivity.
  - unfold all_members. rewrite Hps.
    destruct (products self) as [ps|].
    + change (default [] (Some ps)) with ps.
      rewrite map_app, concat_app. cbn. rewrite app_nil_r. reflexivity.
    + reflexivity.
  - unfold update_degraded_status.
    assert (Hst : degraded_status (new_product self product_name)
                  = degraded_status self).
    { unfold new_product. destruct (products self); reflexivity. }
    rewrite Hst, Hps.
    destruct (String.eqb (degraded_status self) _DEGRADED_STATUS_OK); [|exact Hst].
    destruct (products self) as [ps|].
    + change (default [] (Some ps)) with ps.
      pose proof (products_loop_new_product ps product_name (degraded_status self))
        as Hl.
      destruct (products_loop (ps ++ _) (degraded_status self)) as [status1 e1].
      destruct (products_loop ps (degraded_status self)) as [status2 e2].
      exact Hl.
    + reflexivity.
Qed.

Lemma is_member_loop_true member_eq current_members new_member :
  is_member_loop member_eq current_members new_member = true
  <-> exists member, member ∈ current_members /\ member_eq member new_member = true.
Proof.
  induction current_members as [|m rest IH]; cbn [is_member_loop].
  - split; [discriminate|]. intros (member & Hin & _). inversion Hin.
  - destruct (member_eq m new_member) eqn:E.
    + split; [|reflexivity]. intros _. exists m. split; [apply list_elem_of_here|exact E].
    + rewrite IH. split.
      * intros (member & Hin & Hm). exists member.
        split; [apply list_elem_of_further, Hin|exact Hm].
      * intros (member & Hin & Hm). apply elem_of_cons in Hin as [->|Hin];
          [congruence|eauto].
Qed.

(** X11: [is_member] looks at the last product only.  It answers [False]
    for an association without products, raises [IndexError] for an
    empty list of products, and otherwise answers whether a member of the
    last product equals the new member; members of earlier products do
    not count, and a last product without members gives [False]. *)
Theorem is_member_current_product
    (member_eq : Member -> Member -> bool)
    (self : Association) (new_member : Member) :
  (products self = None -> is_member member_eq self new_member = Returns false)
  /\ (products self = Some [] ->
      is_member member_eq self new_member = Raises IndexError)
  /\ (forall earlier product,
        products self = Some (earlier ++ [product]) ->
        exists b,
          is_member member_eq self new_member = Returns b
          /\ (b = true <->
              exists current_members member,
                members product = Some current_members
                /\ member ∈ current_members
                /\ member_eq member new_member = true)).
Proof.
  unfold is_member, current_product. split; [|split].
  - intros ->. reflexivity.
  - intros ->. reflexivity.
  - intros earlier product ->. rewrite last_snoc_product.
    destruct (members product) as [ms|].
    + eexists. split; [reflexivity|]. rewrite is_member_loop_true. split.
      * intros (member & Hin & Hm). eauto.
      * intros (ms' & member & Hms & Hin & Hm). inversion Hms. subst. eauto.
    + exists false. split; [reflexivity|]. split; [discriminate|].
      intros (ms' & member & Hms & _). discriminate.
Qed.

Lemma is_member_current_product_witness :
  is_member same_expname
    (make_association "Asn_Image" "candidate" ∅ _DEGRADED_STATUS_OK (Some []))
    {[ "expname" := PyStr "exp1" ]}
  = Raises IndexError
  /\ exists b,
       is_member same_expname
         (new_product (association_of "Asn_Image" "candidate" ["exp1"]) "second")
         {[ "expname" := PyStr "exp1" ]}
       = Returns b
       /\ (b = true <->
           exists current_members member,
             Some [] = Some current_members
             /\ member ∈ current_members
             /\ same_expname member {[ "expname" := PyStr "exp1" ]} = true).
Proof.
  split.
  - apply (is_member_current_product same_expname
             (make_association "Asn_Image" "candidate" ∅ _DEGRADED_STATUS_OK (Some []))
             {[ "expname" := PyStr "exp1" ]}).
    reflexivity.
  - destruct (is_member_current_product same_expname
                (new_product (association_of "Asn_Image" "candidate" ["exp1"]) "second")
                {[ "expname" := PyStr "exp1" ]}) as (_ & _ & Hlast).
    apply (Hlast [ {| name := "undefined";
                      members := Some [ {[ "expname" := PyStr "exp1" ]} ] |} ]
                 {| name := "second"; members := Some [] |}).
    reflexivity.
Defined.

Lemma from_items_loop_spec member_item ps :
  (Forall (fun product => is_Some (members product)) ps
   /\ from_items_loop member_item ps
      = Return (member_item
                  <$> concat (map (fun product => default [] (members product)) ps)))
  \/ (~ Forall (fun product => is_Some (members product)) ps
      /\ from_items_loop member_item ps = Raise KeyError).
Proof.
  induction ps as [|product rest IH].
  - left. split; [constructor|reflexivity].
  - cbn [from_items_loop]. destruct (members product) as [ms|] eqn:Ems.
    + destruct IH as [[Hwf ->]|[Hn ->]]; cbn [bind].
      * left. split; [constructor; [rewrite Ems; eauto|exact Hwf]|].
        cbn [map concat]. rewrite Ems. cbn [default]. rewrite fmap_app. reflexivity.
      * right. split; [|reflexivity]. intros H. inversion H. contradiction.
    + right. split; [|reflexivity]. intros H. inversion H as [|? ? [ms Hms] _].
      congruence.
Qed.

(** X12: [from_items] is all or nothing.  For an association that has
    its products and each product its members, it lists the items of all
    members in order; if the products are missing, or any one product
    lacks its members, the list is empty, the items of the other products
    included. *)
Theorem from_items_all_or_nothing
    (member_item : Member -> Item) (self : Association) :
  (has_products self ->
     from_items member_item self = member_item <$> all_members self)
  /\ (~ has_products self -> from_items member_item self = []).
Proof.
  unfold from_items, has_products, all_members.
  destruct (products self) as [ps|]; cbn [bind].
  - destruct (from_items_loop_spec member_item ps) as [[Hwf ->]|[Hn ->]].
    + split; [reflexivity|]. intros H. exfalso. apply H. eauto.
    + split; [|reflexivity]. intros (ps' & Hps & Hwf). inversion Hps. subst.
      contradiction.
  - split; [|reflexivity]. intros (ps' & Hps & _). discriminate.
Qed.

Lemma from_items_all_or_nothing_witness :
  from_items (fun member => member) broken_association = []
  /\ from_items (fun member => member)
       (association_of "Asn_Image" "candidate" ["exp1"; "exp2"])
     = [ {[ "expname" := PyStr "exp1" ]}; {[ "expname" := PyStr "exp2" ]} ].
Proof.
  split.
  - apply (from_items_all_or_nothing (fun member => member) broken_association).
    intros (ps & Hps & Hwf). inversion Hps. subst ps.
    inversion Hwf as [|? ? [ms Hms] _]. discriminate.
  - destruct (from_items_all_or_nothing (fun member => member)
                (association_of "Asn_Image" "candidate" ["exp1"; "exp2"]))
      as [Hall _].
    rewrite Hall; [reflexivity|].
    eexists. split; [reflexivity|]. repeat constructor. eexists. reflexivity.
Defined.

(** ** Zero padding *)

Lemma string_length_app (a b : string) :
  String.length (a +:+ b) = (String.length a + String.length b)%nat.
Proof.
  induction a as [|c a IH]; [reflexivity|].
  change (S (String.length (a +:+ b)) = S (String.length a + String.length b)).
  rewrite IH. reflexivity.
Qed.

Lemma zeros_length n : String.length (zeros n) = n.
Proof. induction n as [|n IH]; cbn; [reflexivity|]. rewrite IH. reflexivity. Qed.

Lemma rjust_zero_length width s :
  String.length (rjust_zero width s) = Nat.max width (String.length s).
Proof. unfold rjust_zero. rewrite string_length_app, zeros_length. lia. Qed.

(** ** The subarray, target and exposure fragments *)

(** X13: the subarray fragment is never ["full"]: the full array and a
    missing constraint both give the empty fragment, and any other value
    is passed on as it is. *)
Theorem get_subarray_never_full (self : Association) :
  _get_subarray self <> "full"
  /\ (constraints self !! "subarray" = None -> _get_subarray self = "")
  /\ (forall c,
        constraints self !! "subarray" = Some c ->
        format_list (found_values c) = "full" -> _get_subarray self = "")
  /\ (forall c,
        constraints self !! "subarray" = Some c ->
        format_list (found_values c) <> "full" ->
        _get_subarray self = format_list (found_values c)).
Proof.
  unfold _get_subarray, getitem.
  destruct (constraints self !! "subarray") as [c|]; cbn [bind].
  - destruct (String.eqb_spec (format_list (found_values c)) "full") as [E|E].
    + split; [discriminate|]. split; [discriminate|]. split; [reflexivity|].
      intros c' Hc Hne. inversion Hc. subst c'. contradiction.
    + split; [exact E|]. split; [discriminate|]. split.
      * intros c' Hc Hfull. inversion Hc. subst c'. contradiction.
      * intros c' Hc _. inversion Hc. reflexivity.
  - split; [discriminate|]. split; [reflexivity|]. split; discriminate.
Qed.

Lemma get_subarray_never_full_witness :
  _get_subarray (make_association "Asn_Image" "candidate"
                   {[ "subarray" := {| value := None; found_values := ["full"] |} ]}
                   "" None) = ""
  /\ _get_subarray (make_association "Asn_Image" "candidate"
                      {[ "subarray" := {| value := None; found_values := ["FULL"] |} ]}
                      "" None) = "FULL".
Proof.
  split.
  - destruct (get_subarray_never_full
                (make_association "Asn_Image" "candidate"
                   {[ "subarray" := {| value := None; found_values := ["full"] |} ]}
                   "" None)) as (_ & _ & Hfull & _).
    apply (Hfull {| value := None; found_values := ["full"] |}); reflexivity.
  - destruct (get_subarray_never_full
                (make_association "Asn_Image" "candidate"
                   {[ "subarray" := {| value := None; found_values := ["FULL"] |} ]}
                   "" None)) as (_ & _ & _ & Hother).
    apply (Hother {| value := None; found_values := ["FULL"] |});
      [reflexivity|discriminate].
Defined.

(** X14: the target fragment needs the [target] constraint and raises
    [KeyError] without it.  Otherwise it is the letter [t] followed by
    the target id, padded with zeros on the left to three characters; an
    id of three or more characters is not shortened. *)
Theorem get_target_padded (self : Association) :
  (constraints self !! "target" = None -> _get_target self = Raise KeyError)
  /\ (forall c,
        constraints self !! "target" = Some c ->
        exists k,
          _get_target self
          = Return ("t" +:+ zeros k +:+ format_list (found_values c))
          /\ (k + String.length (format_list (found_values c))
              = Nat.max 3 (String.length (format_list (found_values c))))%nat).
Proof.
  unfold _get_target, getitem. split.
  - intros ->. reflexivity.
  - intros c ->. cbn [bind].
    exists (3 - String.length (format_list (found_values c)))%nat.
    split; [reflexivity|lia].
Qed.

Lemma get_target_padded_witness :
  exists k,
    _get_target (make_association "Asn_Image" "candidate"
                   {[ "target" := {| value := None; found_values := ["7"] |} ]}
                   "" None)
    = Return ("t" +:+ zeros k +:+ "7")
    /\ (k + 1 = 3)%nat.
Proof.
  destruct (get_target_padded
              (make_association "Asn_Image" "candidate"
                 {[ "target" := {| value := None; found_values := ["7"] |} ]}
                 "" None)) as [_ Hpad].
  apply (Hpad {| value := None; found_values := ["7"] |}). reflexivity.
Defined.

(** X15: the exposure fragment is empty when there is no [activity_id]
    constraint or when the joined ids are a sentinel; otherwise it is the
    joined ids padded with zeros on the left to two characters. *)
Theorem get_exposure_padded (self : Association) :
  (constraints self !! "activity_id" = None -> _get_exposure self = "")
  /\ (forall c,
        constraints self !! "activity_id" = Some c ->
        PyStr (format_list (found_values c)) ∈ _EMPTY ->
        _get_exposure self = "")
  /\ (forall c,
        constraints self !! "activity_id" = Some c ->
        PyStr (format_list (found_values c)) ∉ _EMPTY ->
        exists k,
          _get_exposure self = zeros k +:+ format_list (found_values c)
          /\ (k + String.length (format_list (found_values c))
              = Nat.max 2 (String.length (format_list (found_values c))))%nat).
Proof.
  unfold _get_exposure, getitem, py_in. split; [|split].
  - intros ->. reflexivity.
  - intros c -> Hin. cbn [bind]. rewrite (bool_decide_eq_true_2 _ Hin). reflexivity.
  - intros c -> Hnot. cbn [bind]. rewrite (bool_decide_eq_false_2 _ Hnot). cbn [negb].
    exists (2 - String.length (format_list (found_values c)))%nat.
    split; [reflexivity|lia].
Qed.

Lemma get_exposure_padded_witness :
  exists k,
    _get_exposure (make_association "Asn_Image" "candidate"
                     {[ "activity_id" := {| value := None; found_values := ["3"] |} ]}
                     "" None)
    = zeros k +:+ "3"
    /\ (k + 1 = 2)%nat.
Proof.
  destruct (get_exposure_padded
              (make_association "Asn_Image" "candidate"
                 {[ "activity_id" := {| value := None; found_values := ["3"] |} ]}
                 "" None)) as (_ & _ & Hpad).
  apply (Hpad {| value := None; found_values := ["3"] |}); [reflexivity|].
  intros Hin. apply (bool_decide_eq_true_2 _) in Hin. vm_compute in Hin. discriminate.
Defined.

(** ** Association names *)

Lemma lower_ascii_idemp c : lower_ascii (lower_ascii c) = lower_ascii c.
Proof. destruct c as [[] [] [] [] [] [] [] []]; reflexivity. Qed.

Lemma lower_idemp s : lower (lower s) = lower s.
Proof.
  induction s as [|c s IH]; [reflexivity|].
  cbn [lower]. rewrite lower_ascii_idemp, IH. reflexivity.
Qed.

Lemma lower_app a b : lower (a +:+ b) = lower a +:+ lower b.
Proof.
  induction a as [|c a IH]; [reflexivity|].
  change (String (lower_ascii c) (lower (a +:+ b))
          = String (lower_ascii c) (lower a +:+ lower b)).
  rewrite IH. reflexivity.
Qed.

Lemma string_app_assoc (a b c : string) : (a +:+ b) +:+ c = a +:+ b +:+ c.
Proof.
  induction a as [|x a IH]; [reflexivity|].
  change (String x ((a +:+ b) +:+ c) = String x (a +:+ b +:+ c)).
  rewrite IH. reflexivity.
Qed.

Lemma string_app_inv_tail (a b t : string) : a +:+ t = b +:+ t -> a = b.
Proof.
  revert b. induction a as [|x a IH]; intros [|y b] H.
  - reflexivity.
  - apply (f_equal String.length) in H.
    rewrite (string_length_app (String y b) t) in H.
    change (String.length ("" +:+ t)) with (String.length t) in H.
    change (String.length (String y b)) with (S (String.length b)) in H. lia.
  - apply (f_equal String.length) in H.
    rewrite (string_length_app (String x a) t) in H.
    change (String.length ("" +:+ t)) with (String.length t) in H.
    change (String.length (String x a)) with (S (String.length a)) in H. lia.
  - change (String x (a +:+ t) = String y (b +:+ t)) in H.
    inversion H. subst y. f_equal. apply IH. assumption.
Qed.

(** The decimal digits of a number. *)
Lemma pretty_N_char_lower x : lower_ascii (pretty_N_char x) = pretty_N_char x.
Proof. unfold pretty_N_char. repeat case_match; reflexivity. Qed.

Lemma pretty_N_go_lower x : forall s, lower s = s -> lower (pretty_N_go x s) = pretty_N_go x s.
Proof.
  induction (N.lt_wf_0 x) as [x _ IH]. intros s Hs.
  destruct (decide (x = 0)%N) as [->|Hx]; [rewrite pretty_N_go_0; exact Hs|].
  rewrite pretty_N_go_step by lia. apply IH.
  - apply N.div_lt; lia.
  - cbn [lower]. rewrite pretty_N_char_lower, Hs. reflexivity.
Qed.

Lemma pretty_N_lower (x : N) : lower (pretty x) = pretty x.
Proof.
  unfold pretty, pretty_N. case_decide; [reflexivity|].
  apply pretty_N_go_lower. reflexivity.
Qed.

Lemma pretty_N_go_head x : forall s,
  (0 < x)%N ->
  exists c rest, pretty_N_go x s = String c rest /\ c <> "0"%char.
Proof.
  induction (N.lt_wf_0 x) as [x _ IH]. intros s Hx.
  rewrite pretty_N_go_step by exact Hx.
  destruct (decide (x < 10)%N) as [Hsmall|Hbig].
  - rewrite N.div_small by exact Hsmall. rewrite pretty_N_go_0.
    rewrite N.mod_small by exact Hsmall.
    eexists _, _. split; [reflexivity|].
    assert (x = 1 \/ x = 2 \/ x = 3 \/ x = 4 \/ x = 5 \/ x = 6
            \/ x = 7 \/ x = 8 \/ x = 9)%N as Hcases by lia.
    destruct Hcases as [->|[->|[->|[->|[->|[->|[->|[->| ->]]]]]]]]; discriminate.
  - apply IH.
    + apply N.div_lt; lia.
    + apply N.div_str_pos. lia.
Qed.

Lemma pretty_N_leading_zero (x : N) rest :
  pretty x = String "0" rest -> x = 0%N /\ rest = "".
Proof.
  unfold pretty, pretty_N. case_decide as Hx.
  - intros H. inversion H. auto.
  - intros H. destruct (pretty_N_go_head x "") as (c & r & Hc & Hne); [lia|].
    rewrite Hc in H. inversion H. contradiction.
Qed.

Lemma pretty_N_nonempty (x : N) : pretty x <> "".
Proof.
  unfold pretty, pretty_N. case_decide as Hx; [discriminate|].
  destruct (pretty_N_go_head x "") as (c & r & Hc & _); [lia|].
  rewrite Hc. discriminate.
Qed.

Lemma pretty_N_no_dash (x : N) rest : pretty x <> String "-" rest.
Proof.
  unfold pretty, pretty_N. case_decide as Hx; [discriminate|].
  apply (pretty_N_go_ne_dash x "" rest). discriminate.
Qed.

Lemma zeros_lower k : lower (zeros k) = zeros k.
Proof. induction k as [|k IH]; [reflexivity|]. cbn [zeros lower]. rewrite IH. reflexivity. Qed.

(** Zero padding keeps decimal numbers apart. *)
Lemma zeros_pretty_inj a : forall b (x y : N),
  zeros a +:+ pretty x = zeros b +:+ pretty y -> x = y.
Proof.
  induction a as [|a IH]; intros [|b] x y H.
  - apply (inj pretty). exact H.
  - change (pretty x = String "0" (zeros b +:+ pretty y)) in H.
    apply pretty_N_leading_zero in H as [_ H].
    destruct b; [|discriminate H]. destruct (pretty_N_nonempty y H).
  - change (String "0" (zeros a +:+ pretty x) = pretty y) in H. symmetry in H.
    apply pretty_N_leading_zero in H as [_ H].
    destruct a; [|discriminate H]. destruct (pretty_N_nonempty x H).
  - change (String "0" (zeros a +:+ pretty x) = String "0" (zeros b +:+ pretty y)) in H.
    inversion H. eapply IH. eassumption.
Qed.

Lemma zeros_pretty_no_dash a (x : N) rest : zeros a +:+ pretty x <> String "-" rest.
Proof.
  destruct a as [|a].
  - apply pretty_N_no_dash.
  - discriminate.
Qed.

Lemma format_03d_inj n m : format_03d n = format_03d m -> n = m.
Proof.
  unfold format_03d, rjust_zero.
  destruct (Z.ltb_spec n 0) as [Hn|Hn], (Z.ltb_spec m 0) as [Hm|Hm]; intros H.
  - change (String "-" (zeros (2 - String.length (pretty (Z.abs_N n)))
                        +:+ pretty (Z.abs_N n))
            = String "-" (zeros (2 - String.length (pretty (Z.abs_N m)))
                          +:+ pretty (Z.abs_N m))) in H.
    inversion H as [H']. apply zeros_pretty_inj in H'. lia.
  - symmetry in H. destruct (zeros_pretty_no_dash _ _ _ H).
  - destruct (zeros_pretty_no_dash _ _ _ H).
  - apply zeros_pretty_inj in H. lia.
Qed.

Lemma format_03d_lower n : lower (format_03d n) = format_03d n.
Proof.
  unfold format_03d, rjust_zero. destruct (n <? 0)%Z.
  - rewrite !lower_app, zeros_lower, pretty_N_lower. reflexivity.
  - rewrite lower_app, zeros_lower, pretty_N_lower. reflexivity.
Qed.

(** X16: a name needs the association type and the sequence number:
    without the type the call raises [KeyError], without a sequence
    number [TypeError].  Otherwise the call returns a name; lower-casing
    that name again changes nothing, and an empty version id gives the
    name that no version id gives. *)
Theorem asn_name_lowercase (self : Association) (naming : Naming) :
  (asn_type naming = None -> asn_name self naming = Raises (Builtin KeyError))
  /\ (is_Some (asn_type naming) -> sequence self = None ->
      asn_name self naming = Raises TypeError)
  /\ (is_Some (asn_type naming) -> is_Some (sequence self) ->
      exists name, asn_name self naming = Returns name /\ lower name = name)
  /\ asn_name self {| program := program naming; version_id := Some "";
                      asn_type := asn_type naming; acid_id := acid_id naming |}
     = asn_name self {| program := program naming; version_id := None;
                        asn_type := asn_type naming; acid_id := acid_id naming |}.
Proof.
  unfold asn_name. split; [|split; [|split]].
  - intros ->. reflexivity.
  - intros [t ->] ->. reflexivity.
  - intros [t ->] [n ->]. eexists. split; [reflexivity|apply lower_idemp].
  - cbn [asn_type version_id program acid_id]. reflexivity.
Qed.

Lemma asn_name_lowercase_witness :
  exists name,
    asn_name (set_sequence tso_association 12)
      {| program := "00001"; version_id := Some "20171108T041457";
         asn_type := Some "Image3"; acid_id := "o001" |}
    = Returns name /\ lower name = name.
Proof.
  destruct (asn_name_lowercase (set_sequence tso_association 12)
              {| program := "00001"; version_id := Some "20171108T041457";
                 asn_type := Some "Image3"; acid_id := "o001" |})
    as (_ & _ & Hname & _).
  apply Hname; eexists; reflexivity.
Defined.

Lemma asn_name_sequence_eq (self1 self2 : Association) (naming : Naming)
    (name : string) :
  asn_name self1 naming = Returns name ->
  asn_name self2 naming = Returns name ->
  sequence self1 = sequence self2.
Proof.
  unfold asn_name. destruct (asn_type naming) as [t|]; [|discriminate].
  destruct (sequence self1) as [n|]; [|discriminate].
  destruct (sequence self2) as [m|]; [|discriminate].
  intros H1 H2. rewrite <- H1 in H2. clear H1. inversion H2 as [H]. clear H2.
  f_equal. apply format_03d_inj. rewrite <- (format_03d_lower n), <- (format_03d_lower m).
  destruct (match version_id naming with
            | Some "" | None => false
            | Some _ => true
            end).
  - rewrite !(lower_app "jw"), !(lower_app (program naming)), !(lower_app "-"),
      !(lower_app (acid_id naming)), !(lower_app "_"),
      !(lower_app (default "" (version_id naming))), !(lower_app "_"),
      !(lower_app t), !(lower_app "_"), !(lower_app (format_03d _)) in H.
    repeat (apply (inj (String.app _)) in H).
    apply string_app_inv_tail in H. symmetry. exact H.
  - rewrite !(lower_app "jw"), !(lower_app (program naming)), !(lower_app "-"),
      !(lower_app (acid_id naming)), !(lower_app "_"),
      !(lower_app t), !(lower_app "_"), !(lower_app (format_03d _)) in H.
    repeat (apply (inj (String.app _)) in H).
    apply string_app_inv_tail in H. symmetry. exact H.
Qed.

(** X17: with the same program, candidate, version id and type, two
    associations get the same name only if they have the same sequence
    number. *)
Theorem asn_name_sequence (self1 self2 : Association) (naming : Naming)
    (name : string) :
  asn_name self1 naming = Returns name ->
  asn_name self2 naming = Returns name ->
  sequence self1 = sequence self2.
Proof. apply asn_name_sequence_eq. Qed.

Lemma asn_name_sequence_witness :
  sequence (set_sequence tso_association 12)
  = sequence (set_sequence two_filter_association 12).
Proof.
  apply (asn_name_sequence (set_sequence tso_association 12)
           (set_sequence two_filter_association 12)
           {| program := "00001"; version_id := None;
              asn_type := Some "image3"; acid_id := "o001" |}
           "jw00001-o001_image3_012_asn");
    vm_compute; reflexivity.
Defined.

(** ** Validity tests *)

Lemma update_validity_step (tests : list (string * bool * (Item -> bool)))
    entries entry :
  update_validity (validity_test_after entries <$> tests) entry
  = (validity_test_after (entries ++ [entry]) <$> tests, None).
Proof.
  induction tests as [|[[key v] f] tests IH]; [reflexivity|].
  cbn [fmap list_fmap validity_test_after update_validity validated check] in *.
  rewrite existsb_app. cbn [existsb]. rewrite orb_false_r.
  destruct v, (existsb f entries); cbn [orb]; rewrite IH; reflexivity.
Qed.

Lemma update_validity_all_after (tests : list (string * bool * (Item -> bool)))
    entries : forall seen,
  update_validity_all (validity_test_after seen <$> tests) entries
  = (validity_test_after (seen ++ entries) <$> tests, None).
Proof.
  induction entries as [|entry rest IH]; intros seen.
  - rewrite app_nil_r. reflexivity.
  - cbn [update_validity_all]. rewrite update_validity_step, IH, <- app_assoc.
    reflexivity.
Qed.

Lemma validity_test_after_nil (tests : list (string * bool * (Item -> bool))) :
  validity_test_after [] <$> tests = validity_test <$> tests.
Proof.
  induction tests as [|[[key v] f] tests IH]; [reflexivity|].
  cbn [fmap list_fmap validity_test_after validity_test existsb] in *.
  rewrite orb_false_r, IH. reflexivity.
Qed.

Lemma update_validity_all_tests
    (tests : list (string * bool * (Item -> bool))) (entries : list Item) :
  update_validity_all (validity_test <$> tests) entries
  = (validity_test_after entries <$> tests, None).
Proof.
  rewrite <- validity_test_after_nil. apply (update_validity_all_after tests entries []).
Qed.

(** X18: validity only grows.  After any history of entries the tests
    are the same tests in the same order, no call has raised, and a test
    is validated exactly when it was validated before or its check
    accepts one of the entries. *)
Theorem update_validity_history
    (tests : list (string * bool * (Item -> bool))) (entries : list Item) :
  update_validity_all (validity_test <$> tests) entries
  = (validity_test_after entries <$> tests, None).
Proof. apply update_validity_all_tests. Qed.

Lemma all_validated_spec validity :
  (Forall (fun kt => validated kt.2 = Some true) validity
   /\ all_validated validity = Return true)
  \/ (~ Forall (fun kt => validated kt.2 = Some true) validity
      /\ (all_validated validity = Return false
          \/ all_validated validity = Raise KeyError)).
Proof.
  induction validity as [|[key test] rest IH].
  - left. split; [constructor|reflexivity].
  - cbn [all_validated]. destruct (validated test) as [[|]|] eqn:Ev.
    + destruct IH as [[Hall Hr]|[Hn Hr]].
      * left. split; [constructor; assumption|exact Hr].
      * right. split; [|exact Hr]. intros H. inversion H. contradiction.
    + right. split; [|left; reflexivity]. intros H. inversion H as [|? ? Hh _].
      cbn in Hh. congruence.
    + right. split; [|right; reflexivity]. intros H. inversion H as [|? ? Hh _].
      cbn in Hh. congruence.
Qed.

Lemma validate_accepts (validity : list (string * ValidityTest)) :
  validate (Returns tt) true validity = Returns true
  <-> Returns tt = Returns tt
      /\ (true = false
          \/ Forall (fun kt => validated kt.2 = Some true) validity).
Proof.
  unfold validate.
  destruct (all_validated_spec validity) as [[Hall ->]|[Hn [-> | ->]]].
  - split; [auto|reflexivity].
  - split; [discriminate|]. intros [_ [H|H]]; [discriminate|contradiction].
  - split; [discriminate|]. intros [_ [H|H]]; [discriminate|contradiction].
Qed.

(** X19: [validate] never answers [False]: it returns [True] or raises.
    It returns [True] exactly when the base class accepts the association
    and, for an association with the mixin, every validity test is
    validated; an association with the mixin that the base class accepts
    but with a test that is not validated, or that lacks the key, raises
    [AssociationNotValidError]. *)
Theorem validate_outcome (super_validate : outcome unit) (is_dms : bool)
    (validity : list (string * ValidityTest)) :
  (forall r, validate super_validate is_dms validity = Returns r -> r = true)
  /\ (validate super_validate is_dms validity = Returns true
      <-> super_validate = Returns tt
          /\ (is_dms = false
              \/ Forall (fun kt => validated kt.2 = Some true) validity))
  /\ (super_validate = Returns tt -> is_dms = true ->
      ~ Forall (fun kt => validated kt.2 = Some true) validity ->
      exists message,
        validate super_validate is_dms validity
        = Raises (AssociationNotValidError message)).
Proof.
  unfold validate. destruct super_validate as [[]|e].
  2: { split; [discriminate|]. split; [|discriminate].
       split; [discriminate|]. intros [H _]. discriminate. }
  destruct is_dms.
  2: { split; [intros r H; inversion H; reflexivity|].
       split; [|discriminate]. split; [auto|reflexivity]. }
  destruct (all_validated_spec validity) as [[Hall ->]|[Hn [-> | ->]]].
  - split; [intros r H; inversion H; reflexivity|].
    split; [|contradiction]. split; [auto|reflexivity].
  - split; [discriminate|]. split; [|eauto].
    split; [discriminate|]. intros [_ [H|H]]; [discriminate|contradiction].
  - split; [discriminate|]. split; [|eauto].
    split; [discriminate|]. intros [_ [H|H]]; [discriminate|contradiction].
Qed.

Lemma validate_outcome_witness :
  exists message,
    validate (Returns tt) true
      [ ("has_science", {| validated := Some false; check := Some has_science |}) ]
    = Raises (AssociationNotValidError message).
Proof.
  destruct (validate_outcome (Returns tt) true
              [ ("has_science",
                 {| validated := Some false; check := Some has_science |}) ])
    as (_ & _ & Hraise).
  apply Hraise; [reflexivity|reflexivity|].
  intros H. inversion H as [|? ? Hh _]. discriminate Hh.
Defined.

(** X20: an association with the mixin that the base class accepts is
    valid after a history of entries exactly when each of its tests was
    validated before or accepts at least one entry of the history. *)
Theorem validate_after_history
    (tests : list (string * bool * (Item -> bool))) (entries : list Item) :
  validate (Returns tt) true
    (update_validity_all (validity_test <$> tests) entries).1 = Returns true
  <-> Forall (fun t : string * bool * (Item -> bool) =>
                t.1.2 = true \/ exists entry, entry ∈ entries /\ t.2 entry = true)
        tests.
Proof.
  rewrite update_validity_all_tests. cbn [fst].
  rewrite validate_accepts. rewrite Forall_fmap.
  assert (Hiff : forall t : string * bool * (Item -> bool),
            (validated (validity_test_after entries t).2 = Some true)
            <-> (t.1.2 = true \/ exists entry, entry ∈ entries /\ t.2 entry = true)).
  { intros [[key v] f]. cbn. split.
    - intros H. assert (Hb : v || existsb f entries = true) by congruence.
      apply orb_true_iff in Hb as [Hv|He].
      { left. exact Hv. }
      right. apply existsb_exists in He as (entry & Hin & Hf).
      exists entry. split; [apply list_elem_of_In, Hin|exact Hf].
    - intros [->|(entry & Hin & Hf)]; [reflexivity|]. f_equal.
      apply orb_true_iff. right. apply existsb_exists.
      exists entry. split; [apply list_elem_of_In, Hin|exact Hf]. }
  split.
  - intros [_ [H|H]]; [discriminate|].
    eapply Forall_impl; [exact H|]. intros t Ht. apply Hiff, Ht.
  - intros H. split; [reflexivity|]. right.
    eapply Forall_impl; [exact H|]. intros t Ht. apply Hiff, Ht.
Qed.

(** ** The mode of operation *)

(** X21: in every mode [Main] sets the global constraint [asn_candidate]
    and no other.  Its value restricts the candidates only when ids are
    given and neither [discover] nor [all_candidates] is set; without any
    selector the run discovers and keeps all candidates, and with a
    selector the selectors are used as given. *)
Theorem mode_of_operation_constraint (parsed : parsed_args) :
  exists c,
    (mode_of_operation parsed).2 = {[ "asn_candidate" := c ]}
    /\ (cc_value c <> PyNone
        <-> discover parsed = false /\ all_candidates parsed = false
            /\ exists id ids, asn_candidate_ids parsed = Some (id :: ids))
    /\ (discover parsed = false -> all_candidates parsed = false ->
        asn_candidate_ids parsed = None ->
        discover (mode_of_operation parsed).1 = true
        /\ all_candidates (mode_of_operation parsed).1 = true)
    /\ (discover parsed = true \/ all_candidates parsed = true
        \/ is_Some (asn_candidate_ids parsed) ->
        (mode_of_operation parsed).1 = parsed).
Proof.
  destruct parsed as [d a ids]. unfold mode_of_operation.
  cbn [discover all_candidates asn_candidate_ids].
  destruct d, a, ids as [[|id ids]|]; cbn [negb andb orb fst snd];
    try rewrite bool_decide_eq_false_2 by discriminate;
    try rewrite bool_decide_eq_true_2 by reflexivity;
    cbn [discover all_candidates asn_candidate_ids negb andb orb fst snd];
    eexists; (split; [reflexivity|]);
    cbn [constrain_on_candidates cc_value];
    (split; [split; [intros H; try (exfalso; apply H; reflexivity);
                     repeat split; eauto
                    |intros (Hd & Ha & id' & ids' & Hi);
                     try discriminate Hd; try discriminate Ha; try discriminate Hi;
                     discriminate]|]);
    (split; [intros Hd Ha Hi; try discriminate Hd; try discriminate Ha;
             try discriminate Hi; split; reflexivity|]);
    intros [H|[H|[x H]]]; try discriminate H; reflexivity.
Qed.

Lemma mode_of_operation_constraint_witness :
  discover (mode_of_operation
              {| discover := false; all_candidates := false;
                 asn_candidate_ids := None |}).1 = true
  /\ all_candidates (mode_of_operation
                       {| discover := false; all_candidates := false;
                          asn_candidate_ids := None |}).1 = true.
Proof.
  destruct (mode_of_operation_constraint
              {| discover := false; all_candidates := false;
                 asn_candidate_ids := None |}) as (c & _ & _ & Hdefault & _).
  apply Hdefault; reflexivity.
Defined.

(** ** Names of the associations of a run *)

(** X22: with a counter whose numbers are monotonically assigned,
    between two resets two associations whose classes use the same
    counter, hence two associations of one rule class, never get the same
    name from the same program, candidate, version id and type. *)
Theorem created_names_differ
    (Counter : Type) (ops : CounterOps Counter)
    (ProcessList : Type) (mro : string -> list string)
    (super_create :
       string -> Item -> option string -> option Association * list ProcessList)
    (calls : list call) (classes classes' : gmap string Counter)
    (created : list Association) (naming : Naming)
    (i j : nat) (a b : Association) (name_a name_b : string) :
  (forall cls, DMSBaseMixin ∈ mro cls) ->
  monotonically_assigned Counter ->
  forallb is_create calls = true ->
  is_Some (classes !! DMSBaseMixin) ->
  run ProcessList mro super_create calls classes = Return (created, classes') ->
  (i < j)%nat -> created !! i = Some a -> created !! j = Some b ->
  counter_owner mro classes (rule a) = counter_owner mro classes (rule b) ->
  asn_name a naming = Returns name_a ->
  asn_name b naming = Returns name_b ->
  name_a <> name_b.
Proof.
  intros Hmro Hincr Hcreates Hmixin Hrun Hij Ha Hb Hsame Hna Hnb Heq. subst name_b.
  destruct (run_creates ProcessList mro super_create Hmro Hincr calls classes
              Hcreates Hmixin)
    as (created0 & classes0 & Hrun0 & _ & _ & Hnum & Hsorted).
  rewrite Hrun in Hrun0. inversion Hrun0. subst created0 classes0.
  destruct (Hnum a) as (_ & _ & na & _ & Hsa & _).
  { apply list_elem_of_lookup. eauto. }
  destruct (Hnum b) as (_ & _ & nb & _ & Hsb & _).
  { apply list_elem_of_lookup. eauto. }
  pose proof (Hsorted i j a b na nb Hij Ha Hb Hsame Hsa Hsb) as Hlt.
  pose proof (asn_name_sequence_eq a b naming name_a Hna Hnb) as Hseq.
  rewrite Hsa, Hsb in Hseq. inversion Hseq. lia.
Qed.

Lemma created_names_differ_witness :
  "jw00001-o001_image3_002_asn" <> "jw00001-o001_image3_003_asn".
Proof.
  apply (created_names_differ Z stepping_counter unit level3_mro create_with_program
           two_rule_history classes_at_import
           {[ DMSBaseMixin := 3%Z ]}
           [ set_sequence (make_association "Asn_Image" "candidate" ∅
                             _DEGRADED_STATUS_OK None) 2;
             set_sequence (make_association "Asn_Spectrum" "candidate" ∅
                             _DEGRADED_STATUS_OK None) 3 ]
           {| program := "00001"; version_id := None;
              asn_type := Some "image3"; acid_id := "o001" |}
           0 1
           (set_sequence (make_association "Asn_Image" "candidate" ∅
                            _DEGRADED_STATUS_OK None) 2)
           (set_sequence (make_association "Asn_Spectrum" "candidate" ∅
                            _DEGRADED_STATUS_OK None) 3)).
  - intros cls. unfold level3_mro. do 2 apply list_elem_of_further.
    apply list_elem_of_here.
  - intros counter. unfold upcoming. cbn. lia.
  - reflexivity.
  - exists (Counter_start 1). reflexivity.
  - vm_compute. reflexivity.
  - lia.
  - reflexivity.
  - reflexivity.
  - vm_compute. reflexivity.
  - vm_compute. reflexivity.
  - vm_compute. reflexivity.
Defined.

(** ** A validity test without its keys *)

(** X23: a validity test that lacks the key [validated], or that is not
    validated and lacks its [check], makes [update_validity] raise
    [KeyError]; the complete tests before it have been updated by then,
    and it and the tests after it are as they were. *)
Theorem update_validity_missing_key
    (before : list (string * bool * (Item -> bool)))
    (key : string) (test : ValidityTest)
    (after : list (string * ValidityTest)) (entry : Item) :
  validated test = None \/ (validated test = Some false /\ check test = None) ->
  update_validity ((validity_test <$> before) ++ (key, test) :: after) entry
  = ((validity_test_after [entry] <$> before) ++ (key, test) :: after,
     Some KeyError).
Proof.
  intros Hbad. induction before as [|[[k v] f] before IH].
  - cbn [fmap list_fmap app update_validity].
    destruct Hbad as [->|[-> ->]]; reflexivity.
  - cbn [fmap list_fmap app validity_test validity_test_after update_validity
         validated check existsb] in *.
    rewrite IH, orb_false_r. destruct v; reflexivity.
Qed.

Lemma update_validity_missing_key_witness :
  update_validity
    [ ("has_science", {| validated := Some false; check := Some has_science |});
      ("broken", {| validated := None; check := Some has_science |});
      ("later", {| validated := Some false; check := Some has_science |}) ]
    {[ "exptype" := PyStr "science" ]}
  = ([ ("has_science", {| validated := Some true; check := Some has_science |});
       ("broken", {| validated := None; check := Some has_science |});
       ("later", {| validated := Some false; check := Some has_science |}) ],
     Some KeyError).
Proof.
  etransitivity.
  - apply (update_validity_missing_key [("has_science", false, has_science)]
             "broken" {| validated := None; check := Some has_science |}
             [ ("later", {| validated := Some false; check := Some has_science |}) ]
             {[ "exptype" := PyStr "science" ]}).
    left. reflexivity.
  - vm_compute. reflexivity.
Defined.

(** ** Table entries and modifiers *)

(** X24: an exposure type that the table lists gets its entry whatever
    the default is and whatever the item says about PSF, imprint and
    background: the modifiers only refine the default ["science"]. *)
Theorem get_exposure_type_listed (self : Association) (item : Item)
    (default : option string) (exp_type t : string) :
  item !! "exp_type" = Some (PyStr exp_type) ->
  EXPTYPE_MAP !! exp_type = Some t ->
  get_exposure_type self item default = Return t.
Proof.
  intros He Ht. unfold get_exposure_type, exptype_get. rewrite He, Ht.
  apply EXPTYPE_MAP_values in Ht.
  repeat (apply elem_of_cons in Ht as [->|Ht]; [reflexivity|]).
  inversion Ht.
Qed.

Lemma get_exposure_type_listed_witness :
  get_exposure_type tso_association
    {[ "exp_type" := PyStr "nrs_dark"; "is_psf" := PyStr "t";
       "bkgdtarg" := PyStr "t" ]} (Some "science")
  = Return "dark".
Proof.
  apply (get_exposure_type_listed tso_association
           {[ "exp_type" := PyStr "nrs_dark"; "is_psf" := PyStr "t";
              "bkgdtarg" := PyStr "t" ]} (Some "science") "nrs_dark" "dark").
  - reflexivity.
  - vm_compute. reflexivity.
Defined.
